(** * useGoldHistory: the cache-read / validate / refill / write flow

    A shallow embedding of [src/hooks/useGoldHistory.ts].  The hook's one
    entry point, [fetchAndSyncHistory], is an async function that talks to
    three collaborators: the React state cells [loading] and [data], the
    Firestore collection [gold_price_history] and the HTTP endpoint
    [/api/sjc/formatted].  It is embedded as a computation in a small
    monad of JavaScript completions (normal / return / throw) over an
    explicit state, producing the list of effects it issued. *)

From Stdlib Require Import Floats ZArith Ascii.
From stdpp Require Import gmap strings list fin_maps sorting.

Local Open Scope string_scope.
Local Open Scope list_scope.

(** ** JavaScript values *)

(** A JS [number] is an IEEE-754 double: the kernel's primitive floats.
    [a > b] and [a <= b] are the IEEE comparisons, false when either side
    is NaN. *)
Abbreviation number := float.

Definition js_gt (a b : number) : bool := PrimFloat.ltb b a.
Definition js_le (a b : number) : bool := PrimFloat.leb a b.

(** A JS [Date] holds a time value in milliseconds since the epoch, or
    NaN ("Invalid Date"), here [None]. *)
Abbreviation JsDate := (option Z).

(** Thrown values, by the class of the object thrown. *)
Inductive exn : Type :=
  | Error (message : string)
  | RangeError (message : string)
  | TypeError (message : string)
  | SyntaxError (message : string)
  | FirebaseError (message : string).

(** ** Data model *)

(** [interface HistoryItem]. *)
Record HistoryItem : Type := mkItem {
  date : string;
  type : string;
  buy : number;
  sell : number
}.

(** The object handed to [batch.set]:
    [{ ...item, provider: 'SJC', syncedAt: ... }]. *)
Record Document : Type := mkDoc {
  fields : HistoryItem;
  provider : string;
  syncedAt : string
}.

(** [doc.data() as HistoryItem]: the record a stored document is read
    as; the cast shows none of the fields added at persistence time. *)
Definition doc_data (d : Document) : HistoryItem := fields d.

(** A write batch: the staged [set] operations, in staging order, each
    the document identifier handed to [doc] with the document to store. *)
Abbreviation WriteBatch := (list (string * Document)).

(** ** The remote provider's answer *)

Inductive Payload : Type :=
  | NotArray
  | ItemArray (items : list HistoryItem).

(** What [res.json()] resolves to: [null] (on which a property read
    throws) or an object whose [success] is truthy or not and whose
    [data] is an array or not. *)
Inductive Json : Type :=
  | JsonNull
  | JsonObject (success : bool) (payload : Payload).

Inductive Body : Type :=
  | BodyInvalid
  | BodyJson (json : Json).

Record Response : Type := mkResponse {
  status : Z;
  body : Body
}.

(** [res.ok]: the status is in the range 200-299. *)
Definition res_ok (res : Response) : bool :=
  (200 <=? status res)%Z && (status res <=? 299)%Z.

(** ** Effects *)

Inductive ConsoleMessage : Type :=
  | WarnSuspiciousData
  | LogCacheHit (records : nat)
  | LogCacheMiss
  | LogSaved (count : nat)
  | ErrorHistorySync (error : exn).

(** The observable effects of one invocation, in the order issued. *)
Inductive Event : Type :=
  | EvSetLoading (b : bool)
  | EvSetData (items : list HistoryItem)
  | EvGetDocs (lower upper : string)
  | EvFetch (url : string)
  | EvCommit (batch : WriteBatch)
  | EvConsole (msg : ConsoleMessage).

(** The state the flow reads and writes: the two [useState] cells, the
    Firestore collection (document identifier to document) and the number
    of clock readings taken so far. *)
Record State : Type := mkState {
  loading : bool;
  data : list HistoryItem;
  store : gmap string Document;
  ticks : nat
}.

(** What the outside world answers during one invocation. *)
Record Oracle : Type := mkOracle {
  firestoreUp : bool;              (* does [getDocs] resolve? *)
  fetchResult : option Response;   (* [None]: [fetch] itself rejects *)
  commitOk : bool;                 (* does [batch.commit] resolve? *)
  clock : nat -> string            (* n-th [new Date().toISOString()] *)
}.

(** The parts of the platform the hook imports but does not define: the
    constant of [@/lib/constants] and the date functions of [date-fns] and
    of the JS runtime, on valid time values. *)
Class Runtime : Type := {
  MAX_VALID_GOLD_PRICE : number;
  (** [parse(s, fmt, new Date())]: Invalid Date when [s] does not match
      [fmt]; the reference date only supplies fields [fmt] lacks. *)
  parse : string -> string -> JsDate;
  startOfDayMs : Z -> Z;
  endOfDayMs : Z -> Z;
  (** [Date.prototype.toISOString] on a valid time value. *)
  isoString : Z -> string;
  (** [new Date(s)]. *)
  newDate : string -> JsDate;
  (** [format(d, fmt)] on a valid time value. *)
  formatMs : Z -> string -> string
}.

(** ** The completion monad *)

(** How a block of statements ends: it runs to its end with a value, it
    executes [return;], or it throws. *)
Inductive completion (A : Type) : Type :=
  | Normal (a : A)
  | Return
  | Throw (e : exn).
Arguments Normal {A} a.
Arguments Return {A}.
Arguments Throw {A} e.

Definition M (A : Type) : Type := State -> completion A * State * list Event.

Definition ret {A} (a : A) : M A := fun s => (Normal a, s, []).

Definition bind {A B} (m : M A) (k : A -> M B) : M B := fun s =>
  match m s with
  | (Normal a, s1, t1) =>
      match k a s1 with (c, s2, t2) => (c, s2, t1 ++ t2) end
  | (Return, s1, t1) => (Return, s1, t1)
  | (Throw e, s1, t1) => (Throw e, s1, t1)
  end.

Definition throw {A} (e : exn) : M A := fun s => (Throw e, s, []).
Definition return_ {A} : M A := fun s => (Return, s, []).
Definition skip : M unit := ret tt.

(** A pure computation that may throw, run as a statement. *)
Definition liftE {A} (r : exn + A) : M A :=
  match r with
  | inr a => ret a
  | inl e => throw e
  end.
Definition emit (e : Event) : M unit := fun s => (Normal tt, s, [e]).

Declare Scope flow_scope.
Delimit Scope flow_scope with flow.
Notation "'let*' x ':=' m 'in' k" := (bind m (fun x => k))
  (at level 10, x name, m at level 100, k at level 200) : flow_scope.
Notation "m ;; k" := (bind m (fun _ => k))
  (at level 100, k at level 200, right associativity) : flow_scope.
Local Open Scope flow_scope.

(** [try { body } catch (e) { handler } finally { cleanup }]. *)
Definition tryCatchFinally (body : M unit) (handler : exn -> M unit)
    (cleanup : M unit) : M unit := fun s =>
  let '(c1, s1, t1) := body s in
  let '(c2, s2, t2) :=
    match c1 with
    | Throw e => handler e s1
    | _ => (c1, s1, [])
    end in
  let '(c3, s3, t3) := cleanup s2 in
  (match c3 with Normal _ => c2 | _ => c3 end, s3, t1 ++ t2 ++ t3).

(** [array.forEach(callback)], the locals the callback assigns to being
    threaded through as [acc]. *)
Fixpoint forEach {A S} (callback : A -> S -> M S) (l : list A) (acc : S) : M S :=
  match l with
  | [] => ret acc
  | x :: l' => let* acc' := callback x acc in forEach callback l' acc'
  end.

(** How the promise returned by an async function settles. *)
Inductive settled : Type :=
  | Fulfilled
  | Rejected (e : exn).

Record Outcome : Type := mkOutcome {
  promise : settled;
  final : State;
  trace : list Event
}.

Definition runAsync (m : M unit) (s : State) : Outcome :=
  match m s with
  | (Throw e, s', t) => mkOutcome (Rejected e) s' t
  | (_, s', t) => mkOutcome Fulfilled s' t
  end.

(** ** Firestore *)

(** [where("date", ">=", lower), where("date", "<=", upper)]: string
    fields are compared lexicographically. *)
Definition inRange (lower upper : string) (entry : string * Document) : Prop :=
  (lower ≤ date (fields entry.2))%string ∧ (date (fields entry.2) ≤ upper)%string.

#[global] Instance inRange_dec lower upper entry : Decision (inRange lower upper entry).
Proof. unfold inRange. apply _. Defined.

(** [orderBy("date", "asc")]: ascending by the [date] field, documents
    with equal dates by ascending document identifier. *)
Definition docOrder (a b : string * Document) : Prop :=
  (date (fields a.2) ≤ date (fields b.2))%string ∧
  ((date (fields b.2) ≤ date (fields a.2))%string → (a.1 ≤ b.1)%string).

#[global] Instance docOrder_dec : RelDecision docOrder.
Proof. intros a b. unfold docOrder. apply _. Defined.

(** The documents a query snapshot holds ([snapshot.docs]). *)
Definition runQuery (coll : gmap string Document) (lower upper : string)
    : list Document :=
  (merge_sort docOrder (filter (inRange lower upper) (map_to_list coll))).*2.

(** [path.split('/')]. *)
Fixpoint splitSlash (path : string) : list string :=
  match path with
  | EmptyString => [EmptyString]
  | String a rest =>
      if Ascii.eqb a "/" then EmptyString :: splitSlash rest
      else match splitSlash rest with
           | piece :: pieces => String a piece :: pieces
           | [] => [String a EmptyString]
           end
  end.

(** [path.indexOf('//') >= 0]. *)
Fixpoint hasDoubleSlash (path : string) : bool :=
  match path with
  | String a (String b _ as rest) =>
      (Ascii.eqb a "/" && Ascii.eqb b "/") || hasDoubleSlash rest
  | _ => false
  end.

(** The segments of a path: its pieces between slashes, the empty ones
    (a leading or a trailing slash) left out. *)
Definition segments (path : string) : list string :=
  filter (fun segment => segment ≠ EmptyString) (splitSlash path).

(** A document reference: the segments of its path from the root. *)
Abbreviation DocumentReference := (list string).

(** [doc(db, path, pathSegment)]: the SDK rejects an empty [path], a
    component holding [//], and a path that does not have an even number
    of segments; otherwise it returns the reference. *)
Definition doc (path pathSegment : string) : exn + DocumentReference :=
  if bool_decide (path = EmptyString)
  then inl (FirebaseError "Function doc() cannot be called with an empty path.")
  else if hasDoubleSlash path || hasDoubleSlash pathSegment
  then inl (FirebaseError "Invalid segment. Paths must not contain // in them.")
  else
    let ref := segments path ++ segments pathSegment in
    if Nat.even (length ref) then inr ref
    else inl (FirebaseError "Invalid document reference. Document references must have an even number of segments.").

(** The identifier under which [doc(db, "gold_price_history", id)] is a
    document of the collection itself: the one segment of [id].  An [id]
    of more segments names a document of a subcollection, which the
    collection does not hold. *)
Definition collectionKey (id : string) : option string :=
  match segments id with
  | [key] => Some key
  | _ => None
  end.

(** [batch.commit()] when it succeeds: every staged [set] is applied, a
    later one for the same document replacing an earlier one.  The
    collection changes by the writes to its own documents. *)
Definition applyBatch (batch : WriteBatch) (coll : gmap string Document)
    : gmap string Document :=
  foldl (fun m entry => match collectionKey entry.1 with
                        | Some key => <[key := entry.2]> m
                        | None => m
                        end) coll batch.

(** ** The hook *)

Section Hook.
Context {rt : Runtime} (world : Oracle).

(** [startOfDay(d)], [endOfDay(d)]: an Invalid Date stays invalid. *)
Definition startOfDay (d : JsDate) : JsDate := startOfDayMs <$> d.
Definition endOfDay (d : JsDate) : JsDate := endOfDayMs <$> d.

(** [d.toISOString()] throws a RangeError on an Invalid Date. *)
Definition toISOString (d : JsDate) : exn + string :=
  match d with
  | Some t => inr (isoString t)
  | None => inl (RangeError "Invalid time value")
  end.

(** [format(d, fmt)] throws a RangeError on an Invalid Date. *)
Definition format (d : JsDate) (fmt : string) : exn + string :=
  match d with
  | Some t => inr (formatMs t fmt)
  | None => inl (RangeError "Invalid time value")
  end.

(** [new Date().toISOString()]: the next reading of the clock. *)
Definition nowISOString : M string := fun s =>
  (Normal (clock world (ticks s)),
   mkState (loading s) (data s) (store s) (S (ticks s)), []).

Definition setLoading (b : bool) : M unit := fun s =>
  (Normal tt, mkState b (data s) (store s) (ticks s), [EvSetLoading b]).

Definition setData (items : list HistoryItem) : M unit := fun s =>
  (Normal tt, mkState (loading s) items (store s) (ticks s), [EvSetData items]).

Definition console (msg : ConsoleMessage) : M unit := emit (EvConsole msg).

(** [await getDocs(q)] for the range query on [gold_price_history]. *)
Definition getDocs (lower upper : string) : M (list Document) := fun s =>
  if firestoreUp world
  then (Normal (runQuery (store s) lower upper), s, [EvGetDocs lower upper])
  else (Throw (FirebaseError "unavailable"), s, [EvGetDocs lower upper]).

(** [await fetch(url)]. *)
Definition fetch (url : string) : M Response := fun s =>
  match fetchResult world with
  | Some res => (Normal res, s, [EvFetch url])
  | None => (Throw (TypeError "Failed to fetch"), s, [EvFetch url])
  end.

(** [await res.json()]. *)
Definition res_json (res : Response) : M Json :=
  match body res with
  | BodyJson json => ret json
  | BodyInvalid => throw (SyntaxError "Unexpected token")
  end.

(** [json.success] and [json.data]: reading a property of [null] throws. *)
Definition json_success (json : Json) : M bool :=
  match json with
  | JsonObject success _ => ret success
  | JsonNull => throw (TypeError "Cannot read properties of null")
  end.

Definition json_data (json : Json) : Payload :=
  match json with
  | JsonObject _ payload => payload
  | JsonNull => NotArray
  end.

Definition isArray (p : Payload) : bool :=
  match p with ItemArray _ => true | NotArray => false end.

(** [await batch.commit()]: all staged writes are applied, or none. *)
Definition commit (batch : WriteBatch) : M unit := fun s =>
  if commitOk world
  then (Normal tt,
        mkState (loading s) (data s) (applyBatch batch (store s)) (ticks s),
        [EvCommit batch])
  else (Throw (FirebaseError "commit failed"), s, [EvCommit batch]).

(** [snapshot.empty]. *)
Definition snapshot_empty (docs : list Document) : bool :=
  match docs with [] => true | _ :: _ => false end.

(** Line 42: [cachedData.some(item => item.buy > MAX || item.sell > MAX)]. *)
Definition isOutlier (item : HistoryItem) : bool :=
  js_gt (buy item) MAX_VALID_GOLD_PRICE || js_gt (sell item) MAX_VALID_GOLD_PRICE.

Definition hasOutliers (cachedData : list HistoryItem) : bool :=
  existsb isOutlier cachedData.

(** Lines 21-53, "0. Try Fetch from Firestore First".  The [return] of
    the cache hit leaves the whole function. *)
Definition tryFirestoreFirst (fromDate toDate : string) : M unit :=
  let fromD := startOfDay (parse fromDate "dd/MM/yyyy") in
  let toD := endOfDay (parse toDate "dd/MM/yyyy") in
  let* lower := liftE (toISOString fromD) in
  let* upper := liftE (toISOString toD) in
  let* snapshot := getDocs lower upper in
  if negb (snapshot_empty snapshot)
  then
    let cachedData := doc_data <$> snapshot in
    if hasOutliers cachedData
    then console WarnSuspiciousData
    else if bool_decide (0 < length cachedData)
    then
      console (LogCacheHit (length cachedData));;
      setData cachedData;;
      setLoading false;;
      return_
    else skip
  else skip.

(** Lines 73-76: the document identifier of a record. *)
Definition docId (item : HistoryItem) : exn + string :=
  let dateObj := newDate (date item) in
  match format dateObj "yyyyMMdd_HHmmss" with
  | inr dateKey => inr (type item +:+ "_" +:+ dateKey)
  | inl e => inl e
  end.

(** Lines 72-85: the callback of [items.forEach], on the locals
    [batch] and [count].  The staged write is recorded under the
    identifier its reference was made from. *)
Definition stageItem (item : HistoryItem) (acc : WriteBatch * nat)
    : M (WriteBatch * nat) :=
  let* id := liftE (docId item) in
  let* docRef := liftE (doc "gold_price_history" id) in
  let* now := nowISOString in
  ret (acc.1 ++ [(id, mkDoc item "SJC" now)], S acc.2).

(** Lines 67-89, "2. Sync to Firestore (Client-side)". *)
Definition syncToFirestore (items : list HistoryItem) : M unit :=
  if bool_decide (0 < length items)
  then
    let* staged := forEach stageItem items ([], 0) in
    commit staged.1;;
    console (LogSaved staged.2)
  else skip.

Definition formattedUrl (fromDate toDate : string) : string :=
  "/api/sjc/formatted?fromDate=" +:+ fromDate +:+ "&toDate=" +:+ toDate.

(** Lines 55-89, "1. Call Formatted API", then the sync. *)
Definition callFormattedApi (fromDate toDate : string) : M unit :=
  console LogCacheMiss;;
  let* res := fetch (formattedUrl fromDate toDate) in
  (if negb (res_ok res) then throw (Error "Failed to fetch history")
   else skip);;
  let* json := res_json res in
  let* success := json_success json in
  if negb success || negb (isArray (json_data json)) then return_ else
  let items := match json_data json with
               | ItemArray items => items
               | NotArray => []
               end in
  setData items;;
  syncToFirestore items.

(** Lines 18-96. *)
Definition fetchAndSyncHistory (fromDate toDate : string) : M unit :=
  setLoading true;;
  tryCatchFinally
    (tryFirestoreFirst fromDate toDate;;
     callFormattedApi fromDate toDate)
    (fun error => console (ErrorHistorySync error))
    (setLoading false).

End Hook.

(** One invocation of the hook's entry point from state [s]. *)
Definition invoke {rt : Runtime} (world : Oracle) (fromDate toDate : string)
    (s : State) : Outcome :=
  runAsync (fetchAndSyncHistory world fromDate toDate) s.

(** ** A reference runtime

    One concrete platform, for evaluating the hook on concrete inputs:
    a fixed time-zone offset, the proleptic Gregorian calendar, the
    [date-fns] patterns made of digit groups and literal characters, and
    the ISO-8601 forms of the [Date] constructor. *)

Module Reference.

Local Open Scope Z_scope.

Definition msPerDay : Z := 86400000.

(** Days since 1970-01-01 of a civil date, and back. *)
Definition daysFromCivil (y m d : Z) : Z :=
  let y' := if m <=? 2 then y - 1 else y in
  let era := y' / 400 in
  let yoe := y' - era * 400 in
  let doy := (153 * (if 2 <? m then m - 3 else m + 9) + 2) / 5 + d - 1 in
  let doe := yoe * 365 + yoe / 4 - yoe / 100 + doy in
  era * 146097 + doe - 719468.

Definition civilFromDays (z : Z) : Z * Z * Z :=
  let z := z + 719468 in
  let era := z / 146097 in
  let doe := z - era * 146097 in
  let yoe := (doe - doe / 1460 + doe / 36524 - doe / 146096) / 365 in
  let doy := doe - (365 * yoe + yoe / 4 - yoe / 100) in
  let mp := (5 * doy + 2) / 153 in
  let d := doy - (153 * mp + 2) / 5 + 1 in
  let m := if mp <? 10 then mp + 3 else mp - 9 in
  (yoe + era * 400 + (if m <=? 2 then 1 else 0), m, d).

Definition isLeap (y : Z) : bool :=
  (y mod 4 =? 0) && (negb (y mod 100 =? 0) || (y mod 400 =? 0)).

Definition daysInMonth (y m : Z) : Z :=
  if m =? 2 then (if isLeap y then 29 else 28)
  else if (m =? 4) || (m =? 6) || (m =? 9) || (m =? 11) then 30 else 31.

Definition validCivil (y m d : Z) : bool :=
  (1 <=? m) && (m <=? 12) && (1 <=? d) && (d <=? daysInMonth y m).

(** *** Digits *)

Definition digitValue (a : ascii) : option Z :=
  let n := Z.of_N (Ascii.N_of_ascii a) in
  if (48 <=? n) && (n <=? 57) then Some (n - 48) else None.

Definition digitChar (z : Z) : ascii :=
  Ascii.ascii_of_N (Z.to_N (48 + z mod 10)).

(** The [width] low decimal digits of [z]. *)
Fixpoint digits (width : nat) (z : Z) : string :=
  match width with
  | O => EmptyString
  | S w => digits w (z / 10) +:+ String (digitChar z) EmptyString
  end.

(** Between one and [width] leading digits, as many as there are. *)
Fixpoint readDigits (width : nat) (acc : option Z) (s : string)
    : option Z * string :=
  match width, s with
  | S w, String a s' =>
      match digitValue a with
      | Some v => readDigits w (Some (default 0 acc * 10 + v)) s'
      | None => (acc, s)
      end
  | _, _ => (acc, s)
  end.

(** A pattern as its runs of equal characters: ["dd/MM"] is
    [[("d", 2); ("/", 1); ("M", 2)]]. *)
Fixpoint runs (pattern : string) : list (ascii * nat) :=
  match pattern with
  | EmptyString => []
  | String a rest =>
      match runs rest with
      | (b, n) :: tl => if Ascii.eqb a b then (a, S n) :: tl
                        else (a, 1%nat) :: (b, n) :: tl
      | [] => [(a, 1%nat)]
      end
  end.

Record Civil : Type := mkCivil {
  year : Z; month : Z; day : Z;
  hours : Z; minutes : Z; seconds : Z; millis : Z
}.

Definition civilOfMs (tz : Z) (t : Z) : Civil :=
  let local := t + tz * 60000 in
  let '(y, m, d) := civilFromDays (local / msPerDay) in
  let r := local mod msPerDay in
  mkCivil y m d (r / 3600000) (r / 60000 mod 60) (r / 1000 mod 60) (r mod 1000).

Definition msOfCivil (tz : Z) (c : Civil) : Z :=
  daysFromCivil (year c) (month c) (day c) * msPerDay
  + hours c * 3600000 + minutes c * 60000 + seconds c * 1000 + millis c
  - tz * 60000.

Definition validClock (c : Civil) : bool :=
  (hours c <=? 23) && (minutes c <=? 59) && (seconds c <=? 59).

(** *** [format] *)

Definition formatRun (c : Civil) (run : ascii * nat) : string :=
  let '(a, n) := run in
  if Ascii.eqb a "y" then digits n (year c)
  else if Ascii.eqb a "M" then digits n (month c)
  else if Ascii.eqb a "d" then digits n (day c)
  else if Ascii.eqb a "H" then digits n (hours c)
  else if Ascii.eqb a "m" then digits n (minutes c)
  else if Ascii.eqb a "s" then digits n (seconds c)
  else String.concat EmptyString (replicate n (String a EmptyString)).

Definition formatMs (tz : Z) (t : Z) (pattern : string) : string :=
  String.concat EmptyString (formatRun (civilOfMs tz t) <$> runs pattern).

(** *** [parse] *)

Definition setField (a : ascii) (v : Z) (c : Civil) : option Civil :=
  if Ascii.eqb a "y" then Some (mkCivil v (month c) (day c) 0 0 0 0)
  else if Ascii.eqb a "M" then Some (mkCivil (year c) v (day c) 0 0 0 0)
  else if Ascii.eqb a "d" then Some (mkCivil (year c) (month c) v 0 0 0 0)
  else None.

Fixpoint literal (a : ascii) (n : nat) (s : string) : option string :=
  match n, s with
  | O, _ => Some s
  | S n', String b s' => if Ascii.eqb a b then literal a n' s' else None
  | S _, EmptyString => None
  end.

Fixpoint parseRuns (rs : list (ascii * nat)) (c : Civil) (s : string)
    : option Civil :=
  match rs with
  | [] => if String.eqb s EmptyString then Some c else None
  | (a, n) :: rs' =>
      if Ascii.eqb a "y" || Ascii.eqb a "M" || Ascii.eqb a "d"
      then
        match readDigits (Nat.max n 2) None s with
        | (Some v, s') => c' ← setField a v c; parseRuns rs' c' s'
        | (None, _) => None
        end
      else s' ← literal a n s; parseRuns rs' c s'
  end.

Definition parse (tz : Z) (s pattern : string) : JsDate :=
  c ← parseRuns (runs pattern) (mkCivil 1970 1 1 0 0 0 0) s;
  if (1 <=? year c) && validCivil (year c) (month c) (day c)
  then Some (msOfCivil tz c) else None.

Definition startOfDayMs (tz : Z) (t : Z) : Z :=
  let local := t + tz * 60000 in
  local / msPerDay * msPerDay - tz * 60000.

Definition endOfDayMs (tz : Z) (t : Z) : Z :=
  startOfDayMs tz t + (msPerDay - 1).

(** *** [toISOString] and [new Date(string)] *)

Definition isoString (t : Z) : string :=
  let c := civilOfMs 0 t in
  (if (0 <=? year c) && (year c <=? 9999) then digits 4 (year c)
   else (if year c <? 0 then "-" else "+") +:+ digits 6 (Z.abs (year c)))
  +:+ "-" +:+ digits 2 (month c) +:+ "-" +:+ digits 2 (day c)
  +:+ "T" +:+ digits 2 (hours c) +:+ ":" +:+ digits 2 (minutes c)
  +:+ ":" +:+ digits 2 (seconds c) +:+ "." +:+ digits 3 (millis c) +:+ "Z".

(** Exactly [width] digits. *)
Definition fixedDigits (width : nat) (s : string) : option (Z * string) :=
  match readDigits width None s with
  | (Some v, s') =>
      if bool_decide (String.length s = (width + String.length s')%nat)
      then Some (v, s') else None
  | (None, _) => None
  end.

Definition expect (a : ascii) (s : string) : option string := literal a 1 s.

(** The offset suffix of a date-time, in minutes east of UTC; a
    date-time without one is in local time. *)
Definition readOffset (tz : Z) (s : string) : option Z :=
  match s with
  | EmptyString => Some tz
  | "Z" => Some 0
  | String sign s1 =>
      '(h, s2) ← fixedDigits 2 s1;
      s3 ← expect ":" s2;
      '(m, s4) ← fixedDigits 2 s3;
      if negb (String.eqb s4 EmptyString) then None
      else if Ascii.eqb sign "+" then Some (h * 60 + m)
      else if Ascii.eqb sign "-" then Some (- (h * 60 + m))
      else None
  end.

Definition readMillis (s : string) : option (Z * string) :=
  match s with
  | String "." s1 => fixedDigits 3 s1
  | _ => Some (0, s)
  end.

(** [YYYY-MM-DD] (UTC) and [YYYY-MM-DDTHH:mm:ss(.sss)(Z|+HH:mm|-HH:mm)]. *)
Definition newDate (tz : Z) (s : string) : JsDate :=
  '(y, s1) ← fixedDigits 4 s;
  s2 ← expect "-" s1;
  '(m, s3) ← fixedDigits 2 s2;
  s4 ← expect "-" s3;
  '(d, s5) ← fixedDigits 2 s4;
  if negb (validCivil y m d) then None else
  match s5 with
  | EmptyString => Some (msOfCivil 0 (mkCivil y m d 0 0 0 0))
  | _ =>
      s6 ← expect "T" s5;
      '(hh, s7) ← fixedDigits 2 s6;
      s8 ← expect ":" s7;
      '(mi, s9) ← fixedDigits 2 s8;
      s10 ← expect ":" s9;
      '(ss, s11) ← fixedDigits 2 s10;
      '(ms, s12) ← readMillis s11;
      off ← readOffset tz s12;
      let c := mkCivil y m d hh mi ss ms in
      if validClock c then Some (msOfCivil off c) else None
  end.

(** The platform at [tz] minutes east of UTC with validity threshold
    [maxPrice]. *)
Definition runtime (tz : Z) (maxPrice : number) : Runtime :=
  Build_Runtime maxPrice (parse tz) (startOfDayMs tz) (endOfDayMs tz)
    isoString (newDate tz) (formatMs tz).

End Reference.

(** ** Reading a trace *)

Definition cacheReads (t : list Event) : list (string * string) :=
  omap (fun e => match e with EvGetDocs lo hi => Some (lo, hi) | _ => None end) t.

Definition remoteCalls (t : list Event) : list string :=
  omap (fun e => match e with EvFetch url => Some url | _ => None end) t.

Definition cacheWrites (t : list Event) : list WriteBatch :=
  omap (fun e => match e with EvCommit b => Some b | _ => None end) t.

Definition published (t : list Event) : list (list HistoryItem) :=
  omap (fun e => match e with EvSetData items => Some items | _ => None end) t.

(** Ascending date order of a series. *)
Definition dateAscending (series : list HistoryItem) : Prop :=
  StronglySorted (fun a b => (date a ≤ date b)%string) series.

(** ** Vocabulary of the statements *)

(** What the handler of the [try] logs for a completion of its body. *)
Definition catchLog (c : completion unit) : list Event :=
  match c with
  | Throw e => [EvConsole (ErrorHistorySync e)]
  | _ => []
  end.
Arguments catchLog : simpl never.

(** What lines 73-77 make of a record: the reference of its document,
    unless [format] or [doc] throws. *)
Definition docRefOf {rt : Runtime} (item : HistoryItem) : exn + DocumentReference :=
  match docId item with
  | inr id => doc "gold_price_history" id
  | inl e => inl e
  end.

(** A staged write for a record: its identifier is the record's [docId],
    which names a document, its document the record tagged with the
    provider. *)
Definition stagedFor {rt : Runtime} (entry : string * Document) (item : HistoryItem)
    : Prop :=
  docId item = inr entry.1 ∧ fields entry.2 = item ∧ provider entry.2 = "SJC" ∧
  ∃ ref, docRefOf item = inr ref.

(** The records of a provider answer that the hook accepts: a 2xx
    response whose body is an object with a truthy [success] and an array
    [data].  Every other answer is a failure. *)
Definition accepted (answer : option Response) : option (list HistoryItem) :=
  match answer with
  | Some res =>
      if res_ok res then
        match body res with
        | BodyJson (JsonObject true (ItemArray items)) => Some items
        | _ => None
        end
      else None
  | None => None
  end.

Section Paths.
Context {rt : Runtime} (world : Oracle).

(** The four ways the body of the [try] can go. *)
Inductive Path (fromDate toDate : string) (s : State)
    : completion unit → State → list Event → Prop :=
  | InvalidRange :
      parse fromDate "dd/MM/yyyy" = None ∨ parse toDate "dd/MM/yyyy" = None →
      Path fromDate toDate s (Throw (RangeError "Invalid time value")) s []
  | ReadFailed from to :
      parse fromDate "dd/MM/yyyy" = Some from →
      parse toDate "dd/MM/yyyy" = Some to →
      firestoreUp world = false →
      Path fromDate toDate s (Throw (FirebaseError "unavailable")) s
        [EvGetDocs (isoString (startOfDayMs from)) (isoString (endOfDayMs to))]
  | CacheHit from to docs :
      parse fromDate "dd/MM/yyyy" = Some from →
      parse toDate "dd/MM/yyyy" = Some to →
      firestoreUp world = true →
      docs = runQuery (store s) (isoString (startOfDayMs from))
               (isoString (endOfDayMs to)) →
      docs ≠ [] →
      hasOutliers (doc_data <$> docs) = false →
      Path fromDate toDate s Return
        (mkState false (doc_data <$> docs) (store s) (ticks s))
        [EvGetDocs (isoString (startOfDayMs from)) (isoString (endOfDayMs to));
         EvConsole (LogCacheHit (length docs));
         EvSetData (doc_data <$> docs);
         EvSetLoading false]
  | Refill from to docs c s' t :
      parse fromDate "dd/MM/yyyy" = Some from →
      parse toDate "dd/MM/yyyy" = Some to →
      firestoreUp world = true →
      docs = runQuery (store s) (isoString (startOfDayMs from))
               (isoString (endOfDayMs to)) →
      docs = [] ∨ hasOutliers (doc_data <$> docs) = true →
      callFormattedApi world fromDate toDate s = (c, s', t) →
      Path fromDate toDate s c s'
        (EvGetDocs (isoString (startOfDayMs from)) (isoString (endOfDayMs to))
         :: (if hasOutliers (doc_data <$> docs)
             then [EvConsole WarnSuspiciousData] else [])
         ++ t).
End Paths.

(** The state in which the body of the [try] starts: the busy flag set. *)
Definition busy (s : State) : State :=
  mkState true (data s) (store s) (ticks s).

(** A record within the validity threshold, as the specification words
    it: [buy <= MAX] and [sell <= MAX]. *)
Definition withinThreshold {rt : Runtime} (item : HistoryItem) : Prop :=
  js_le (buy item) MAX_VALID_GOLD_PRICE = true ∧
  js_le (sell item) MAX_VALID_GOLD_PRICE = true.

(** A record above it: [buy > MAX] or [sell > MAX]. *)
Definition aboveThreshold {rt : Runtime} (item : HistoryItem) : Prop :=
  js_gt (buy item) MAX_VALID_GOLD_PRICE = true ∨
  js_gt (sell item) MAX_VALID_GOLD_PRICE = true.

(** The provider failures of the specification: a non-2xx status, a false
    success flag, a [data] field that is not an array. *)
Inductive ProviderFailure : option Response → Prop :=
  | NonSuccessStatus res :
      res_ok res = false → ProviderFailure (Some res)
  | SuccessFlagFalse res payload :
      body res = BodyJson (JsonObject false payload) → ProviderFailure (Some res)
  | DataNotArray res success :
      body res = BodyJson (JsonObject success NotArray) → ProviderFailure (Some res).

(** An invocation that went on to the remote provider: after a prefix
    that publishes nothing and writes nothing, the API block ran from the
    busy state. *)
Definition Refilled {rt : Runtime} (world : Oracle) (fromDate toDate : string)
    (s : State) (out : Outcome) : Prop :=
  ∃ pre c s' t,
    remoteCalls pre = [] ∧ cacheWrites pre = [] ∧ published pre = [] ∧
    callFormattedApi world fromDate toDate (busy s) = (c, s', t) ∧
    out = mkOutcome Fulfilled (mkState false (data s') (store s') (ticks s'))
            (pre ++ t ++ catchLog c ++ [EvSetLoading false]).

(** The same platform with another validity threshold. *)
Definition withThreshold (maxPrice : number) (rt : Runtime) : Runtime :=
  Build_Runtime maxPrice (@parse rt) (@startOfDayMs rt) (@endOfDayMs rt)
    (@isoString rt) (@newDate rt) (@formatMs rt).

(** The identifier of the form [{type}_{yyyyMMdd_HHmmss of date}]. *)
Definition keyedByTypeAndDate {rt : Runtime} (entry : string * Document)
    (item : HistoryItem) : Prop :=
  ∃ t, newDate (date item) = Some t ∧
       entry.1 = type item +:+ "_" +:+ formatMs t "yyyyMMdd_HHmmss".

(** ** Scenarios

    The example of the specification: the range 01/01/2026 - 05/01/2026
    at UTC+7, threshold 200,000,000, three quotations a day apart. *)

Module Scenario.

(** Modelled from the spec: [MAX_VALID_GOLD_PRICE] is declared in
    [@/lib/constants], which is not among the sources; 200,000,000 is
    the value of the specification's example. *)
Definition vietnam : Runtime := Reference.runtime 420 200000000%float.

(** The quotation of 09:00 local time on a day of January 2026. *)
Definition quote (day : string) (sellPrice : number) : HistoryItem :=
  mkItem ("2026-01-" +:+ day +:+ "T02:00:00.000Z") "bar" 90100000%float sellPrice.

Definition cachedDoc (day : string) (sellPrice : number) : string * Document :=
  ("bar_202601" +:+ day +:+ "_090000",
   mkDoc (quote day sellPrice) "SJC" "2026-01-05T10:00:00.000Z").

Definition healthyCache : gmap string Document :=
  list_to_map [cachedDoc "03" 92100000%float; cachedDoc "02" 92100000%float;
               cachedDoc "04" 92100000%float].

Definition corruptCache : gmap string Document :=
  list_to_map [cachedDoc "03" 520000000%float; cachedDoc "02" 92100000%float;
               cachedDoc "04" 92100000%float].

Definition idle (coll : gmap string Document) : State := mkState false [] coll 0.

Definition wallClock (n : nat) : string := "2026-01-06T01:00:00.000Z".

Definition freshSeries : list HistoryItem :=
  [quote "02" 92100000%float; quote "03" 92100000%float; quote "04" 92100000%float].

(** A quotation whose series type holds a slash. *)
Definition ringQuote : HistoryItem :=
  mkItem "2026-01-02T02:00:00.000Z" "bar/ring" 90100000%float 92100000%float.

Definition spike : HistoryItem := quote "03" 520000000%float.

Definition spikedSeries : list HistoryItem :=
  [quote "02" 92100000%float; spike].

Definition envelope (items : list HistoryItem) : Response :=
  mkResponse 200 (BodyJson (JsonObject true (ItemArray items))).

(** The provider answers with [items]; Firestore reads and commits. *)
Definition answering (items : list HistoryItem) : Oracle :=
  mkOracle true (Some (envelope items)) true wallClock.

(** The provider answers with [items]; the commit fails. *)
Definition readOnly (items : list HistoryItem) : Oracle :=
  mkOracle true (Some (envelope items)) false wallClock.

(** The provider answers 500. *)
Definition serverError : Oracle :=
  mkOracle true (Some (mkResponse 500 BodyInvalid)) true wallClock.

End Scenario.

(** ** The runs of the API block and sessions of the hook *)

(** The trace of the API block up to the remote call, then [rest]. *)
Definition called (fromDate toDate : string) (rest : list Event) : list Event :=
  EvConsole LogCacheMiss :: EvFetch (formattedUrl fromDate toDate) :: rest.

Section ApiRuns.
Context {rt : Runtime} (world : Oracle).

(** The nine ways the API block, lines 55-89, can go from state [s]. *)
Inductive ApiRun (fromDate toDate : string) (s : State)
    : completion unit → State → list Event → Prop :=
  | FetchRejects :
      fetchResult world = None →
      ApiRun fromDate toDate s (Throw (TypeError "Failed to fetch")) s
        (called fromDate toDate [])
  | BadStatus res :
      fetchResult world = Some res → res_ok res = false →
      ApiRun fromDate toDate s (Throw (Error "Failed to fetch history")) s
        (called fromDate toDate [])
  | InvalidJson res :
      fetchResult world = Some res → res_ok res = true →
      body res = BodyInvalid →
      ApiRun fromDate toDate s (Throw (SyntaxError "Unexpected token")) s
        (called fromDate toDate [])
  | NullJson res :
      fetchResult world = Some res → res_ok res = true →
      body res = BodyJson JsonNull →
      ApiRun fromDate toDate s
        (Throw (TypeError "Cannot read properties of null")) s
        (called fromDate toDate [])
  | EnvelopeRejected res success payload :
      fetchResult world = Some res → res_ok res = true →
      body res = BodyJson (JsonObject success payload) →
      success = false ∨ payload = NotArray →
      ApiRun fromDate toDate s Return s (called fromDate toDate [])
  | EmptySeries :
      accepted (fetchResult world) = Some [] →
      ApiRun fromDate toDate s (Normal tt)
        (mkState (loading s) [] (store s) (ticks s))
        (called fromDate toDate [EvSetData []])
  | StagingThrows items e n :
      accepted (fetchResult world) = Some items → items ≠ [] →
      Exists (fun item => docRefOf item = inl e) items →
      ApiRun fromDate toDate s (Throw e)
        (mkState (loading s) items (store s) n)
        (called fromDate toDate [EvSetData items])
  | CommitFails items b n :
      accepted (fetchResult world) = Some items → items ≠ [] →
      Forall2 stagedFor b items → commitOk world = false →
      ApiRun fromDate toDate s (Throw (FirebaseError "commit failed"))
        (mkState (loading s) items (store s) n)
        (called fromDate toDate [EvSetData items; EvCommit b])
  | Committed items b n :
      accepted (fetchResult world) = Some items → items ≠ [] →
      Forall2 stagedFor b items → commitOk world = true →
      ApiRun fromDate toDate s (Normal tt)
        (mkState (loading s) items (applyBatch b (store s)) n)
        (called fromDate toDate
           [EvSetData items; EvCommit b; EvConsole (LogSaved (length items))]).
End ApiRuns.

(** A record whose identifier has no slash to interpret: [doc] makes it
    the document of that very identifier in the collection. *)
Definition plainlyKeyed {rt : Runtime} (item : HistoryItem) : Prop :=
  ∃ id, docId item = inr id ∧
        doc "gold_price_history" id = inr ["gold_price_history"; id].

(** A batch all of whose identifiers are document keys as they stand. *)
Definition plainBatch (batch : WriteBatch) : Prop :=
  Forall (fun entry => collectionKey entry.1 = Some entry.1) batch.

(** [useState(false)] and [useState([])], lines 15-16: the state of a
    freshly mounted hook over the collection [coll]. *)
Definition mounted (coll : gmap string Document) : State :=
  mkState false [] coll 0.

(** One call of the entry point the hook returns: its arguments, and what
    the outside world answers while it runs. *)
Record Call : Type := mkCall {
  callWorld : Oracle;
  callFrom : string;
  callTo : string
}.

(** Calls awaited one after the other: the state they end in and the
    effects they issued. *)
Fixpoint session {rt : Runtime} (calls : list Call) (s : State)
    : State * list Event :=
  match calls with
  | [] => (s, [])
  | call :: rest =>
      let out := invoke (callWorld call) (callFrom call) (callTo call) s in
      let '(s', t) := session rest (final out) in
      (s', trace out ++ t)
  end.

(** The changes of the busy flag in a trace. *)
Definition busyChanges (t : list Event) : list bool :=
  omap (fun e => match e with EvSetLoading b => Some b | _ => None end) t.

(** The errors logged by the handler of the [try]. *)
Definition loggedErrors (t : list Event) : list exn :=
  omap (fun e => match e with
                 | EvConsole (ErrorHistorySync err) => Some err
                 | _ => None
                 end) t.

(** The events issued after the busy flag is first cleared. *)
Fixpoint afterFirstClear (t : list Event) : list Event :=
  match t with
  | [] => []
  | EvSetLoading false :: rest => rest
  | _ :: rest => afterFirstClear rest
  end.

(** More scenarios on the example range. *)
Module Cases.
Import Scenario.

(** Firestore is unreachable. *)
Definition offline : Oracle := mkOracle false None false wallClock.

(** Firestore answers; [fetch] itself is rejected. *)
Definition networkDown : Oracle := mkOracle true None true wallClock.

(** The provider answers 200 with [success: false]. *)
Definition refusing : Oracle :=
  mkOracle true
    (Some (mkResponse 200 (BodyJson (JsonObject false (ItemArray freshSeries)))))
    true wallClock.

(** A series whose second record has no readable date. *)
Definition brokenSeries : list HistoryItem :=
  [quote "02" 92100000%float;
   mkItem "yesterday" "bar" 90100000%float 92100000%float].

(** A cached series one of whose prices is NaN. *)
Definition nanCache : gmap string Document :=
  list_to_map [cachedDoc "02" 92100000%float; cachedDoc "03" nan].

(** A series that leaves out the third of January. *)
Definition gappedSeries : list HistoryItem :=
  [quote "02" 92100000%float; quote "04" 92100000%float].

Definition threeCalls : list Call :=
  [mkCall (answering freshSeries) "01/01/2026" "05/01/2026";
   mkCall serverError "01/01/2026" "05/01/2026";
   mkCall (answering []) "01-02-2026" "05/01/2026"].
End Cases.

(** ** The reference runtime on the example range *)

Example reference_lower_bound :
  toISOString (rt := Scenario.vietnam)
    (startOfDay (rt := Scenario.vietnam) (parse (Runtime := Scenario.vietnam) "01/01/2026" "dd/MM/yyyy"))
  = inr "2025-12-31T17:00:00.000Z".
Proof. reflexivity. Qed.

Example reference_upper_bound :
  toISOString (rt := Scenario.vietnam)
    (endOfDay (rt := Scenario.vietnam) (parse (Runtime := Scenario.vietnam) "05/01/2026" "dd/MM/yyyy"))
  = inr "2026-01-05T16:59:59.999Z".
Proof. reflexivity. Qed.

Example reference_rejects_february_31 :
  parse (Runtime := Scenario.vietnam) "31/02/2026" "dd/MM/yyyy" = None.
Proof. reflexivity. Qed.

(** The identifier of the comment at line 74 of the source. *)
Example reference_docId :
  docId (rt := Scenario.vietnam)
    (mkItem "2026-01-30T02:00:00.000Z" "bar" 90100000%float 92100000%float)
  = inr "bar_20260130_090000".
Proof. reflexivity. Qed.

(** ** Document references *)

Example doc_of_plain_identifier :
  doc "gold_price_history" "bar_20260130_090000"
  = inr ["gold_price_history"; "bar_20260130_090000"] ∧
  collectionKey "bar_20260130_090000" = Some "bar_20260130_090000".
Proof. split; reflexivity. Qed.

(** Three segments in all: not a document. *)
Example doc_rejects_one_slash :
  ∃ message, doc "gold_price_history" "bar/ring_20260130_090000"
             = inl (FirebaseError message).
Proof. eexists. reflexivity. Qed.

Example doc_rejects_double_slash :
  ∃ message, doc "gold_price_history" "bar//ring_20260130_090000"
             = inl (FirebaseError message).
Proof. eexists. reflexivity. Qed.

(** Four segments in all: a document of a subcollection. *)
Example doc_of_subcollection :
  doc "gold_price_history" "sjc/bars/ring_20260130_090000"
  = inr ["gold_price_history"; "sjc"; "bars"; "ring_20260130_090000"] ∧
  collectionKey "sjc/bars/ring_20260130_090000" = None.
Proof. split; reflexivity. Qed.

Example doc_strips_leading_slash :
  doc "gold_price_history" "/bar_20260130_090000"
  = inr ["gold_price_history"; "bar_20260130_090000"] ∧
  collectionKey "/bar_20260130_090000" = Some "bar_20260130_090000".
Proof. split; reflexivity. Qed.

(** A series type with a slash: the series is published, [doc] throws
    while the batch is staged, nothing is committed. *)
Example slash_in_type_commits_nothing :
  let out := invoke (rt := Scenario.vietnam)
               (Scenario.answering [Scenario.ringQuote])
               "01/01/2026" "05/01/2026" (Scenario.idle ∅) in
  published (trace out) = [[Scenario.ringQuote]] ∧
  cacheWrites (trace out) = [] ∧
  store (final out) = ∅ ∧
  promise out = Fulfilled.
Proof. vm_compute. by split_and!. Qed.

Example nan_is_not_an_outlier :
  js_gt nan 200000000%float = false ∧ js_le nan 200000000%float = false.
Proof. split; reflexivity. Qed.

(** ** Comparisons of numbers *)

Lemma SFleb_not_SFltb x y : SFleb x y = true → SFltb y x = false.
Proof.
  unfold SFleb, SFltb, SFcompare.
  destruct x as [sx|sx| |sx mx ex], y as [sy|sy| |sy my ey];
    try destruct sx; try destruct sy; simpl; try congruence.
  all: rewrite (Z.compare_antisym ey ex); destruct (ey ?= ex)%Z; simpl;
    try congruence.
  all: change (PosDef.Pos.compare_cont Eq) with Pos.compare.
  all: rewrite (Pos.compare_antisym my mx); destruct (my ?= mx)%positive;
    simpl; congruence.
Qed.

(** [a <= b] excludes [a > b]; the converse fails on NaN. *)
Lemma js_le_not_gt a b : js_le a b = true → js_gt a b = false.
Proof.
  unfold js_le, js_gt. rewrite leb_spec, ltb_spec. apply SFleb_not_SFltb.
Qed.

(** ** The range query *)

#[global] Instance docOrder_total : Total docOrder.
Proof.
  intros a b. unfold docOrder.
  destruct (total String.le (date (fields a.2)) (date (fields b.2))) as [Hab|Hba].
  - destruct (decide (date (fields b.2) ≤ date (fields a.2))%string) as [Hba|Hnba].
    + destruct (total String.le a.1 b.1); [left|right]; split; auto.
    + left. split; [done|]. intros ?; contradiction.
  - destruct (decide (date (fields a.2) ≤ date (fields b.2))%string) as [Hab|Hnab].
    + destruct (total String.le a.1 b.1); [left|right]; split; auto.
    + right. split; [done|]. intros ?; contradiction.
Qed.

Lemma runQuery_sorted coll lower upper :
  dateAscending (doc_data <$> runQuery coll lower upper).
Proof.
  unfold dateAscending, runQuery.
  rewrite <- list_fmap_compose.
  assert (Transitive (fun a b : HistoryItem => (date a ≤ date b)%string))
    by (intros a b c ? ?; by etrans).
  apply (Sorted_StronglySorted _).
  eapply (Sorted_fmap _ docOrder); [|apply (Sorted_merge_sort _)].
  intros a b [Hab _]. exact Hab.
Qed.

Lemma runQuery_in_range coll lower upper d :
  d ∈ runQuery coll lower upper →
  (lower ≤ date (fields d))%string ∧ (date (fields d) ≤ upper)%string.
Proof.
  unfold runQuery. intros Hd.
  apply list_elem_of_fmap in Hd as ([id d'] & -> & Hin).
  rewrite merge_sort_Permutation in Hin.
  apply list_elem_of_filter in Hin as [Hr _]. exact Hr.
Qed.

Lemma runQuery_stored coll lower upper d :
  d ∈ runQuery coll lower upper → ∃ id, coll !! id = Some d.
Proof.
  unfold runQuery. intros Hd.
  apply list_elem_of_fmap in Hd as ([id d'] & -> & Hin).
  rewrite merge_sort_Permutation in Hin.
  apply list_elem_of_filter in Hin as [_ Hin].
  exists id. by apply elem_of_map_to_list in Hin.
Qed.

(** ** Traces of concatenations *)

Lemma cacheReads_app t1 t2 : cacheReads (t1 ++ t2) = cacheReads t1 ++ cacheReads t2.
Proof. apply omap_app. Qed.
Lemma remoteCalls_app t1 t2 : remoteCalls (t1 ++ t2) = remoteCalls t1 ++ remoteCalls t2.
Proof. apply omap_app. Qed.
Lemma cacheWrites_app t1 t2 : cacheWrites (t1 ++ t2) = cacheWrites t1 ++ cacheWrites t2.
Proof. apply omap_app. Qed.
Lemma published_app t1 t2 : published (t1 ++ t2) = published t1 ++ published t2.
Proof. apply omap_app. Qed.

Lemma catchLog_silent c :
  cacheReads (catchLog c) = [] ∧ remoteCalls (catchLog c) = [] ∧
  cacheWrites (catchLog c) = [] ∧ published (catchLog c) = [].
Proof. by destruct c. Qed.

Create Rewrite HintDb trace.
#[global] Hint Rewrite cacheReads_app remoteCalls_app cacheWrites_app
  published_app : trace.

Ltac trace_simpl := repeat (progress (autorewrite with trace; simpl)).

(** ** The blocks of the flow *)

Section Blocks.
Context {rt : Runtime} (world : Oracle).

(** The [forEach] of the sync issues no effect and touches only the
    clock; it either stages one write per record or throws what
    [format] or [doc] threw. *)
Lemma forEach_stageItem items : ∀ acc s c s' t,
  forEach (stageItem world) items acc s = (c, s', t) →
  t = [] ∧ loading s' = loading s ∧ data s' = data s ∧ store s' = store s ∧
  match c with
  | Normal staged =>
      ∃ b, staged = (acc.1 ++ b, acc.2 + length items) ∧ Forall2 stagedFor b items
  | Throw e => Exists (fun item => docRefOf item = inl e) items
  | Return => False
  end.
Proof.
  induction items as [|item items IH]; intros acc s c s' t; simpl.
  - intros [= <- <- <-]. repeat split; try done.
    exists []. by rewrite app_nil_r, Nat.add_0_r, <- surjective_pairing.
  - unfold bind at 1, stageItem, bind, liftE, nowISOString.
    destruct (docId item) as [e|id] eqn:Hid; simpl.
    { intros [= <- <- <-]. repeat split; try done. left.
      unfold docRefOf. by rewrite Hid. }
    destruct (doc "gold_price_history" id) as [e|ref] eqn:Href; simpl.
    { intros [= <- <- <-]. repeat split; try done. left.
      unfold docRefOf. by rewrite Hid. }
    destruct (forEach _ items _ _) as [[c2 s2] t2] eqn:Hrest.
    apply IH in Hrest as (-> & Hl & Hd & Hs & Hc). simpl in *.
    assert (∀ (X : completion (WriteBatch * nat)),
      (X, s2, @nil Event) = (c, s', t) → X = c ∧ s2 = s' ∧ t = [])
      as Hinv by (by intros X [= -> -> <-]).
    destruct c2 as [staged| |e].
    + intros (<- & <- & ->)%Hinv. repeat split; try done.
      destruct Hc as (b & -> & Hb).
      exists ((id, mkDoc item "SJC" (clock world (ticks s))) :: b).
      split; [by rewrite <- app_assoc, Nat.add_succ_r|].
      constructor; [|exact Hb].
      split_and!; try done. exists ref. unfold docRefOf. by rewrite Hid.
    + done.
    + intros (<- & <- & ->)%Hinv. repeat split; try done. by right.
Qed.

(** "2. Sync to Firestore": nothing for an empty series; otherwise at
    most one commit, of one staged write per record, applied to the
    collection exactly when the commit succeeds. *)
Lemma syncToFirestore_cases items s c s' t :
  syncToFirestore world items s = (c, s', t) →
  loading s' = loading s ∧ data s' = data s ∧
  cacheReads t = [] ∧ remoteCalls t = [] ∧ published t = [] ∧
  (items = [] → c = Normal tt ∧ t = [] ∧ s' = s) ∧
  ((∃ e, c = Throw e ∧ Exists (fun item => docRefOf item = inl e) items ∧
         t = [] ∧ store s' = store s) ∨
   (items = [] ∧ t = [] ∧ store s' = store s) ∨
   (∃ b, Forall2 stagedFor b items ∧ items ≠ [] ∧
         if commitOk world
         then c = Normal tt ∧ store s' = applyBatch b (store s) ∧
              t = [EvCommit b; EvConsole (LogSaved (length items))]
         else c = Throw (FirebaseError "commit failed") ∧
              store s' = store s ∧ t = [EvCommit b])).
Proof.
  unfold syncToFirestore. destruct items as [|item items].
  - simpl. intros [= <- <- <-]. repeat split; try done. right; left. done.
  - rewrite bool_decide_eq_true_2 by (simpl; lia).
    unfold bind at 1.
    destruct (forEach _ _ _ _) as [[c1 s1] t1] eqn:Hstage.
    apply forEach_stageItem in Hstage as (-> & Hl & Hd & Hs & Hc).
    destruct c1 as [staged| |e]; [|done|].
    + destruct Hc as (b & -> & Hb). simpl in Hb |- *.
      unfold bind, commit, console, emit. simpl.
      destruct (commitOk world); simpl; intros [= <- <- <-]; simpl;
        (repeat split; try done); right; right; exists b;
        (repeat split; try done); congruence.
    + intros [= <- <- <-]. repeat split; try done. left. by exists e.
Qed.
End Blocks.

Section Flow.
Context {rt : Runtime} (world : Oracle).

(** "1. Call Formatted API": the miss is logged and the provider is
    called once; a failed answer ends the block there, an accepted one
    is published and handed to the sync. *)
Lemma callFormattedApi_cases fromDate toDate s c s' t :
  callFormattedApi world fromDate toDate s = (c, s', t) →
  ∃ t', t = EvConsole LogCacheMiss :: EvFetch (formattedUrl fromDate toDate) :: t' ∧
    match accepted (fetchResult world) with
    | None => t' = [] ∧ s' = s ∧ c ≠ Normal tt
    | Some items =>
        ∃ t'', t' = EvSetData items :: t'' ∧
          syncToFirestore world items
            (mkState (loading s) items (store s) (ticks s)) = (c, s', t'')
    end.
Proof.
  unfold callFormattedApi, accepted, bind, console, emit, fetch. simpl.
  destruct (fetchResult world) as [res|]; simpl.
  2: { intros [= <- <- <-]. by eexists. }
  destruct (res_ok res); simpl.
  2: { intros [= <- <- <-]. by eexists. }
  unfold res_json. destruct (body res) as [|[|success payload]]; simpl.
  1,2: intros [= <- <- <-]; by eexists.
  destruct success; simpl.
  2: { intros [= <- <- <-]. eexists. split; [done|]. by destruct payload. }
  destruct payload as [|items]; simpl.
  { intros [= <- <- <-]. by eexists. }
  unfold setData.
  destruct (syncToFirestore _ _ _) as [[c2 s2] t2] eqn:Hsync.
  destruct c2; intros [= <- <- <-]; (eexists; split; [done|]);
    by exists t2.
Qed.

Lemma body_path fromDate toDate s :
  ∃ c s' t,
    (tryFirestoreFirst world fromDate toDate;;
     callFormattedApi world fromDate toDate) s = (c, s', t) ∧
    Path world fromDate toDate s c s' t.
Proof.
  unfold bind at 1, tryFirestoreFirst, bind, startOfDay, endOfDay, toISOString.
  destruct (parse fromDate _) as [from|] eqn:Hfrom; simpl.
  2: { do 3 eexists. split; [done|]. constructor. by left. }
  destruct (parse toDate _) as [to|] eqn:Hto; simpl.
  2: { do 3 eexists. split; [done|]. constructor. by right. }
  unfold getDocs. destruct (firestoreUp world) eqn:Hup; simpl.
  2: { do 3 eexists. split; [done|]. by econstructor. }
  destruct (runQuery _ _ _) as [|d docs] eqn:Hq.
  - simpl. destruct (callFormattedApi _ _ _ _) as [[c s'] t] eqn:Hapi.
    do 3 eexists. split; [by destruct c|].
    eapply (Refill world fromDate toDate s from to []); eauto.
  - cbn [snapshot_empty negb].
    pose proof (Refill world fromDate toDate s from to (d :: docs)) as HR.
    pose proof (CacheHit world fromDate toDate s from to (d :: docs)) as HC.
    rewrite Hq in HR, HC.
    destruct (hasOutliers (doc_data <$> d :: docs)) eqn:Hout.
    + unfold console, emit.
      destruct (callFormattedApi _ _ _ _) as [[c s'] t] eqn:Hapi.
      do 3 eexists. split; [by destruct c|].
      apply HR; auto.
    + rewrite bool_decide_eq_true_2 by (rewrite length_fmap; simpl; lia).
      rewrite length_fmap. simpl.
      do 3 eexists. split; [done|]. apply HC; auto.
Qed.
End Flow.

Section Invocation.
Context {rt : Runtime} (world : Oracle).

(** Every invocation is the busy flag set, one path through the body,
    the handler's log when the body threw, and the cleanup. *)
Lemma invoke_path fromDate toDate s :
  ∃ c s' t,
    Path world fromDate toDate (busy s) c s' t ∧
    invoke world fromDate toDate s =
      mkOutcome Fulfilled (mkState false (data s') (store s') (ticks s'))
        (EvSetLoading true :: t ++ catchLog c ++ [EvSetLoading false]).
Proof.
  destruct (body_path world fromDate toDate (busy s)) as (c & s' & t & Hrun & Hpath).
  exists c, s', t. split; [exact Hpath|].
  unfold invoke, runAsync, fetchAndSyncHistory, bind at 1, setLoading at 1.
  unfold tryCatchFinally. fold (busy s). rewrite Hrun.
  destruct c as [[]| |e]; simpl; by rewrite ?app_nil_r.
Qed.
End Invocation.

(** ** The claims *)

Section Claims.
Context {rt : Runtime} (world : Oracle).

Lemma hasOutliers_within series :
  Forall withinThreshold series → hasOutliers series = false.
Proof.
  induction 1 as [|item series [Hb Hs] _ IH]; [done|].
  simpl. unfold isOutlier.
  by rewrite (js_le_not_gt _ _ Hb), (js_le_not_gt _ _ Hs), IH.
Qed.

Lemma hasOutliers_above series :
  Exists aboveThreshold series → hasOutliers series = true.
Proof.
  induction 1 as [item series [Hb|Hs]|item series _ IH]; simpl; unfold isOutlier.
  - by rewrite Hb.
  - rewrite Hs. by rewrite orb_true_r.
  - rewrite IH. by rewrite orb_true_r.
Qed.

Lemma failure_not_accepted answer : ProviderFailure answer → accepted answer = None.
Proof.
  destruct 1 as [res Hok|res payload Hbody|res success Hbody]; simpl.
  - by rewrite Hok.
  - rewrite Hbody. by destruct (res_ok res).
  - rewrite Hbody. by destruct (res_ok res), success.
Qed.

(** C9 (parse errors): a malformed [fromDate] or [toDate] makes the flow
    fail while the range bounds are built: no read of the collection, no
    remote call, no commit and nothing published; the result and the
    collection are unchanged, the error is logged, not thrown to the
    caller, and the busy flag is cleared. *)
Theorem malformed_range_fails_before_io fromDate toDate s :
  parse fromDate "dd/MM/yyyy" = None ∨ parse toDate "dd/MM/yyyy" = None →
  let out := invoke world fromDate toDate s in
  trace out = [EvSetLoading true;
               EvConsole (ErrorHistorySync (RangeError "Invalid time value"));
               EvSetLoading false] ∧
  cacheReads (trace out) = [] ∧ remoteCalls (trace out) = [] ∧
  cacheWrites (trace out) = [] ∧ published (trace out) = [] ∧
  data (final out) = data s ∧ store (final out) = store s ∧
  loading (final out) = false ∧ promise out = Fulfilled.
Proof.
  intros Hbad out. subst out.
  destruct (invoke_path world fromDate toDate s) as (c & s' & t & Hpath & ->).
  inversion Hpath; subst; [by repeat split|..]; destruct Hbad; congruence.
Qed.

(** C10 (busy flag): every invocation sets the busy flag first and ends
    with it cleared by the cleanup of the [try], whatever path the flow
    took; the promise is fulfilled on every path.  The cleanup does not
    depend on the path: a [try] with this [finally] ends with the flag
    cleared whatever its body and its handler do. *)
Theorem busy_flag_set_then_always_cleared fromDate toDate s :
  let out := invoke world fromDate toDate s in
  (∃ rest, trace out = EvSetLoading true :: rest) ∧
  last (trace out) = Some (EvSetLoading false) ∧
  loading (final out) = false ∧
  promise out = Fulfilled ∧
  (∀ body handler s0,
      loading (tryCatchFinally body handler (setLoading false) s0).1.2 = false).
Proof.
  intros out. subst out.
  destruct (invoke_path world fromDate toDate s) as (c & s' & t & _ & ->).
  simpl. split_and!; try done.
  - by eexists.
  - by rewrite (app_assoc t), app_comm_cons, last_snoc.
  - intros body handler s0. unfold tryCatchFinally.
    destruct (body s0) as [[c1 s1] t1].
    by destruct c1 as [[]| |e]; [| |destruct (handler e s1) as [[c2 s2] t2]].
Qed.

(** C1 (cache hit): when the read of the collection answers with a
    non-empty series whose records all have [buy <= MAX] and
    [sell <= MAX], exactly that series is published, in ascending date
    order, with no remote call and no commit. *)
Theorem cache_hit_serves_cached fromDate toDate s lower upper :
  let out := invoke world fromDate toDate s in
  let docs := runQuery (store s) lower upper in
  cacheReads (trace out) = [(lower, upper)] →
  firestoreUp world = true →
  docs ≠ [] →
  Forall withinThreshold (doc_data <$> docs) →
  published (trace out) = [doc_data <$> docs] ∧
  data (final out) = doc_data <$> docs ∧
  dateAscending (data (final out)) ∧
  remoteCalls (trace out) = [] ∧
  cacheWrites (trace out) = [] ∧
  store (final out) = store s ∧
  loading (final out) = false ∧
  promise out = Fulfilled.
Proof.
  intros out docs. subst out docs.
  destruct (invoke_path world fromDate toDate s) as (c & s' & t & Hpath & ->).
  intros Hread Hup Hne Hall. apply hasOutliers_within in Hall.
  inversion Hpath; subst; simpl in Hread; try congruence.
  - injection Hread as <- <-. simpl. repeat split; try done.
    apply runQuery_sorted.
  - injection Hread as <- <- _. simpl in *.
    match goal with H : _ ∨ _ |- _ => destruct H end; congruence.
Qed.

(** *** Reaching the provider *)

Lemma refilled_of_call fromDate toDate s :
  remoteCalls (trace (invoke world fromDate toDate s)) ≠ [] →
  Refilled world fromDate toDate s (invoke world fromDate toDate s).
Proof.
  destruct (invoke_path world fromDate toDate s) as (c & s' & t & Hpath & ->).
  inversion Hpath as [| | |from to docs c' s'' t' ? ? ? ? ? Hapi]; subst;
    simpl; try done.
  intros _.
  exists (EvSetLoading true
          :: EvGetDocs (isoString (startOfDayMs from)) (isoString (endOfDayMs to))
          :: (if hasOutliers (doc_data <$> runQuery (store s)
                   (isoString (startOfDayMs from)) (isoString (endOfDayMs to)))
              then [EvConsole WarnSuspiciousData] else [])), c, s', t'.
  split_and!; [by destruct (hasOutliers _)..|exact Hapi|].
  simpl. by rewrite <- !app_assoc.
Qed.

Lemma refilled_of_read fromDate toDate s lower upper :
  cacheReads (trace (invoke world fromDate toDate s)) = [(lower, upper)] →
  firestoreUp world = true →
  runQuery (store s) lower upper = [] ∨
    hasOutliers (doc_data <$> runQuery (store s) lower upper) = true →
  Refilled world fromDate toDate s (invoke world fromDate toDate s).
Proof.
  intros Hread Hup Hmiss. apply refilled_of_call. revert Hread.
  destruct (invoke_path world fromDate toDate s) as (c & s' & t & Hpath & ->).
  inversion Hpath as [| |from to docs ? ? ? ? Hne Hok
                      |from to docs c' s'' t' ? ? ? ? ? Hapi]; subst;
    simpl; try congruence.
  - intros [= <- <-]. exfalso. simpl in *. destruct Hmiss; congruence.
  - intros _. apply callFormattedApi_cases in Hapi as (t'' & -> & _).
    autorewrite with trace.
    match goal with |- context [if ?b then _ else _] => destruct b end;
      simpl; discriminate.
Qed.

(** A refill whose answer is not accepted changes nothing. *)
Lemma refilled_failure fromDate toDate s out :
  Refilled world fromDate toDate s out →
  accepted (fetchResult world) = None →
  remoteCalls (trace out) = [formattedUrl fromDate toDate] ∧
  published (trace out) = [] ∧ cacheWrites (trace out) = [] ∧
  data (final out) = data s ∧ store (final out) = store s ∧
  loading (final out) = false ∧ promise out = Fulfilled.
Proof.
  intros (pre & c & s' & t & Hcalls & Hwrites & Hpub & Hapi & ->) Hacc.
  apply callFormattedApi_cases in Hapi as (t' & -> & Hcase).
  rewrite Hacc in Hcase. destruct Hcase as (-> & -> & _).
  destruct (catchLog_silent c) as (_ & Hc1 & Hc2 & Hc3).
  trace_simpl.
  rewrite Hcalls, Hwrites, Hpub, Hc1, Hc2, Hc3. by repeat split.
Qed.

(** A refill whose answer is accepted publishes the provider's
    records right after the call, then runs the sync. *)
Lemma refilled_accepted fromDate toDate s out items :
  Refilled world fromDate toDate s out →
  accepted (fetchResult world) = Some items →
  ∃ pre c s' t,
    remoteCalls pre = [formattedUrl fromDate toDate] ∧
    cacheWrites pre = [] ∧ published pre = [] ∧
    syncToFirestore world items (mkState true items (store s) (ticks s))
      = (c, s', t) ∧
    out = mkOutcome Fulfilled (mkState false (data s') (store s') (ticks s'))
            (pre ++ EvSetData items :: t ++ catchLog c ++ [EvSetLoading false]).
Proof.
  intros (pre & c & s' & t & Hcalls & Hwrites & Hpub & Hapi & ->) Hacc.
  apply callFormattedApi_cases in Hapi as (t' & -> & Hcase).
  rewrite Hacc in Hcase. destruct Hcase as (t'' & -> & Hsync).
  exists (pre ++ [EvConsole LogCacheMiss; EvFetch (formattedUrl fromDate toDate)]),
    c, s', t''.
  autorewrite with trace. rewrite Hcalls, Hwrites, Hpub.
  split_and!; try done. by rewrite <- app_assoc.
Qed.

(** Whatever a refill publishes is the provider's accepted answer, and
    it is published after the remote call. *)
Lemma refilled_publishes_provider_only fromDate toDate s out :
  Refilled world fromDate toDate s out →
  remoteCalls (trace out) = [formattedUrl fromDate toDate] ∧
  (∃ pre post, trace out = pre ++ EvFetch (formattedUrl fromDate toDate) :: post ∧
               published pre = []) ∧
  published (trace out) = match accepted (fetchResult world) with
                          | Some items => [items]
                          | None => []
                          end.
Proof.
  intros Hre. pose proof Hre as (pre & c & s' & t & Hcalls & Hwrites & Hpub & Hapi & Hout).
  split_and!.
  - destruct (accepted (fetchResult world)) as [items|] eqn:Hacc.
    + destruct (refilled_accepted _ _ _ _ _ Hre Hacc)
        as (pre' & c' & s'' & t' & Hc' & _ & _ & Hsync & ->).
      apply syncToFirestore_cases in Hsync as (_ & _ & _ & Hs & _).
      destruct (catchLog_silent c') as (_ & Hc1 & _).
      trace_simpl.
      rewrite Hc', Hs, Hc1. done.
    + by apply (refilled_failure _ _ _ _ Hre).
  - apply callFormattedApi_cases in Hapi as (t' & -> & _). subst out.
    exists (pre ++ [EvConsole LogCacheMiss]), (t' ++ catchLog c ++ [EvSetLoading false]).
    trace_simpl. rewrite Hpub. split; [|done].
    by rewrite <- app_assoc.
  - destruct (accepted (fetchResult world)) as [items|] eqn:Hacc.
    + destruct (refilled_accepted _ _ _ _ _ Hre Hacc)
        as (pre' & c' & s'' & t' & _ & _ & Hp' & Hsync & ->).
      apply syncToFirestore_cases in Hsync as (_ & _ & _ & _ & Hs & _).
      destruct (catchLog_silent c') as (_ & _ & _ & Hc3).
      trace_simpl.
      rewrite Hp', Hs, Hc3. done.
    + by apply (refilled_failure _ _ _ _ Hre).
Qed.
End Claims.

Section MoreClaims.
Context {rt : Runtime} (world : Oracle).

Lemma accepted_envelope res items :
  fetchResult world = Some res → res_ok res = true →
  body res = BodyJson (JsonObject true (ItemArray items)) →
  accepted (fetchResult world) = Some items.
Proof. intros -> Hok Hbody. simpl. by rewrite Hok, Hbody. Qed.

(** C2 (outlier veto): when the series read from the collection holds
    one record with [buy > MAX] or [sell > MAX], whatever the other
    records are, the flow goes on to the remote provider; nothing is
    published before that call, and what is published afterwards is the
    provider's accepted answer and nothing else, so the cached series
    as a whole is not served. *)
Theorem outlier_vetoes_whole_series fromDate toDate s lower upper :
  let out := invoke world fromDate toDate s in
  let docs := runQuery (store s) lower upper in
  cacheReads (trace out) = [(lower, upper)] →
  firestoreUp world = true →
  Exists aboveThreshold (doc_data <$> docs) →
  remoteCalls (trace out) = [formattedUrl fromDate toDate] ∧
  (∃ pre post,
      trace out = pre ++ EvFetch (formattedUrl fromDate toDate) :: post ∧
      published pre = []) ∧
  published (trace out) = match accepted (fetchResult world) with
                          | Some items => [items]
                          | None => []
                          end.
Proof.
  intros out docs Hread Hup Hout. subst out docs.
  apply (refilled_publishes_provider_only world fromDate toDate s).
  eapply refilled_of_read; eauto using hasOutliers_above.
Qed.

(** C3 (empty cache): when the read of the collection answers with no
    document, the flow goes on to the remote provider; nothing is
    published before that call, and what is published afterwards is the
    provider's accepted answer. *)
Theorem empty_cache_always_refills fromDate toDate s lower upper :
  let out := invoke world fromDate toDate s in
  cacheReads (trace out) = [(lower, upper)] →
  firestoreUp world = true →
  runQuery (store s) lower upper = [] →
  remoteCalls (trace out) = [formattedUrl fromDate toDate] ∧
  (∃ pre post,
      trace out = pre ++ EvFetch (formattedUrl fromDate toDate) :: post ∧
      published pre = []) ∧
  published (trace out) = match accepted (fetchResult world) with
                          | Some items => [items]
                          | None => []
                          end.
Proof.
  intros out Hread Hup Hempty. subst out.
  apply (refilled_publishes_provider_only world fromDate toDate s).
  eapply refilled_of_read; eauto.
Qed.

(** C4 (provider failure): when the remote call is answered with a
    non-2xx status, a false success flag or a [data] that is not an
    array, nothing is published, the result keeps its value from before
    the call, nothing is committed and the promise is fulfilled. *)
Theorem provider_failure_is_silent fromDate toDate s :
  let out := invoke world fromDate toDate s in
  remoteCalls (trace out) ≠ [] →
  ProviderFailure (fetchResult world) →
  published (trace out) = [] ∧
  data (final out) = data s ∧
  cacheWrites (trace out) = [] ∧
  store (final out) = store s ∧
  loading (final out) = false ∧
  promise out = Fulfilled.
Proof.
  intros out Hcall Hfail. subst out.
  apply refilled_of_call in Hcall. apply failure_not_accepted in Hfail.
  destruct (refilled_failure _ _ _ _ _ Hcall Hfail) as (_ & ? & ? & ? & ? & ? & ?).
  done.
Qed.

(** C6 (publish before write): when the remote call is answered with a
    non-empty array, that series is published before any commit is
    attempted and nothing is published after it; it is the result at
    the end whether the commit succeeds, fails or is never reached, the
    promise is fulfilled, and a failed commit leaves the collection as
    it was.  When lines 73-77 give every record a document reference
    (its date is valid and its identifier names a document) the commit
    is attempted, with one staged write per record; when [format] or
    [doc] throws for some record, no commit is attempted at all. *)
Theorem fresh_result_survives_write_failure fromDate toDate s res items :
  let out := invoke world fromDate toDate s in
  remoteCalls (trace out) ≠ [] →
  fetchResult world = Some res →
  res_ok res = true →
  body res = BodyJson (JsonObject true (ItemArray items)) →
  items ≠ [] →
  (∃ pre post,
      trace out = pre ++ EvSetData items :: post ∧
      cacheWrites pre = [] ∧ published pre = [] ∧ published post = []) ∧
  data (final out) = items ∧
  loading (final out) = false ∧
  promise out = Fulfilled ∧
  (commitOk world = false → store (final out) = store s) ∧
  (Forall (fun item => ∃ ref, docRefOf item = inr ref) items →
   ∃ b, cacheWrites (trace out) = [b] ∧ Forall2 stagedFor b items) ∧
  (Exists (fun item => ∃ e, docRefOf item = inl e) items →
   cacheWrites (trace out) = [] ∧ store (final out) = store s).
Proof.
  intros out Hcall Hres Hok Hbody Hne. subst out.
  apply refilled_of_call in Hcall.
  pose proof (accepted_envelope _ _ Hres Hok Hbody) as Hacc.
  destruct (refilled_accepted _ _ _ _ _ _ Hcall Hacc)
    as (pre & c & s' & t & _ & Hw & Hp & Hsync & ->).
  apply syncToFirestore_cases in Hsync
    as (_ & Hdata & _ & _ & Hpub & _ & Hcases).
  destruct (catchLog_silent c) as (_ & _ & Hc2 & Hc3).
  simpl in *. split_and!; try done.
  - exists pre, (t ++ catchLog c ++ [EvSetLoading false]).
    split_and!; try done. trace_simpl. by rewrite Hpub, Hc3.
  - intros Hfail.
    destruct Hcases as [(e & _ & _ & _ & ?)|[(_ & _ & ?)|(b & _ & _ & Hb)]];
      try done.
    rewrite Hfail in Hb. by destruct Hb as (_ & ? & _).
  - intros Hvalid.
    destruct Hcases as [(e & _ & Hthrow & _)|[(? & _)|(b & Hb & _ & Hcommit)]];
      try done.
    + exfalso. apply Exists_exists in Hthrow as (item & Hin & Hid).
      rewrite Forall_forall in Hvalid.
      destruct (Hvalid item Hin) as (ref & Href). congruence.
    + exists b. split; [|done]. trace_simpl. rewrite Hw, Hc2.
      by destruct (commitOk world); destruct Hcommit as (_ & _ & ->).
  - intros Hbad.
    destruct Hcases as [(e & -> & _ & -> & Hs)|[(? & _)|(b & Hb & _ & _)]];
      try done.
    + split; [|done]. trace_simpl. by rewrite Hw.
    + exfalso. apply Exists_exists in Hbad as (item & Hin & e & Hthrow).
      apply list_elem_of_lookup in Hin as (i & Hi).
      destruct (Forall2_lookup_r _ _ _ _ _ Hb Hi)
        as (entry & _ & _ & _ & _ & ref & Href).
      congruence.
Qed.

(** C7 (empty refill): when the remote call is answered with an empty
    array, the empty series is published and is the result, the busy
    flag is cleared, nothing is committed and the collection is
    unchanged. *)
Theorem empty_refill_writes_nothing fromDate toDate s res :
  let out := invoke world fromDate toDate s in
  remoteCalls (trace out) ≠ [] →
  fetchResult world = Some res →
  res_ok res = true →
  body res = BodyJson (JsonObject true (ItemArray [])) →
  published (trace out) = [[]] ∧
  data (final out) = [] ∧
  loading (final out) = false ∧
  cacheWrites (trace out) = [] ∧
  store (final out) = store s ∧
  promise out = Fulfilled.
Proof.
  intros out Hcall Hres Hok Hbody. subst out.
  apply refilled_of_call in Hcall.
  pose proof (accepted_envelope _ _ Hres Hok Hbody) as Hacc.
  destruct (refilled_accepted _ _ _ _ _ _ Hcall Hacc)
    as (pre & c & s' & t & _ & Hw & Hp & Hsync & ->).
  apply syncToFirestore_cases in Hsync as (_ & _ & _ & _ & _ & Hnil & _).
  destruct (Hnil eq_refl) as (-> & -> & ->).
  trace_simpl. by rewrite Hw, Hp.
Qed.
End MoreClaims.

(** ** Idempotent writes *)

Lemma dom_applyBatch (batch : WriteBatch) (coll : gmap string Document) :
  dom (applyBatch batch coll) = list_to_set (omap collectionKey batch.*1) ∪ dom coll.
Proof.
  unfold applyBatch. revert coll.
  induction batch as [|[id d] batch IH]; intros coll; simpl.
  - by rewrite (left_id_L ∅ (∪)).
  - rewrite IH. destruct (collectionKey id) as [key|]; simpl; [|done].
    by rewrite dom_insert_L, (assoc_L (∪)), (comm_L (∪) _ {[key]}).
Qed.

Section Idempotence.
Context {rt : Runtime}.

(** [docId] reads only the [type] and [date] of a record. *)
Lemma docId_deterministic a b :
  type a = type b → date a = date b → docId a = docId b.
Proof. unfold docId. by intros -> ->. Qed.

Lemma stagedFor_keyed entry item :
  stagedFor entry item → keyedByTypeAndDate entry item.
Proof.
  intros (Hid & _). unfold docId, format in Hid.
  destruct (newDate (date item)) as [t|] eqn:Ht; [|done].
  exists t. split; [done|]. by injection Hid as <-.
Qed.

Lemma stagedFor_same_ids b1 b2 items :
  Forall2 stagedFor b1 items → Forall2 stagedFor b2 items → b1.*1 = b2.*1.
Proof.
  intros H1. revert b2.
  induction H1 as [|e1 item b1 items (Hid1 & _) _ IH]; intros b2 H2.
  - by apply Forall2_nil_inv_r in H2 as ->.
  - apply Forall2_cons_inv_r in H2 as (e2 & b2' & (Hid2 & _) & H2 & ->).
    simpl. f_equal; [congruence|by apply IH].
Qed.

Lemma stagedFor_no_throw b items e :
  Forall2 stagedFor b items → ¬ Exists (fun item => docRefOf item = inl e) items.
Proof.
  intros Hb Hex. apply Exists_exists in Hex as (item & Hin & Hthrow).
  apply list_elem_of_lookup in Hin as (i & Hi).
  destruct (Forall2_lookup_r _ _ _ _ _ Hb Hi)
    as (entry & _ & _ & _ & _ & ref & Href).
  congruence.
Qed.

(** What a refill with an accepted answer writes: nothing, for an empty
    series or a record that [format] or [doc] rejects; otherwise one batch of one
    staged write per record, applied when the commit succeeds. *)
Lemma refilled_writes world fromDate toDate s out items :
  Refilled world fromDate toDate s out →
  accepted (fetchResult world) = Some items →
  ((items = [] ∨ ∃ e, Exists (fun item => docRefOf item = inl e) items) ∧
   cacheWrites (trace out) = [] ∧ store (final out) = store s) ∨
  (∃ b, Forall2 stagedFor b items ∧ items ≠ [] ∧
        cacheWrites (trace out) = [b] ∧
        store (final out) = if commitOk world then applyBatch b (store s)
                            else store s).
Proof.
  intros Hre Hacc.
  destruct (refilled_accepted _ _ _ _ _ _ Hre Hacc)
    as (pre & c & s' & t & _ & Hw & _ & Hsync & ->).
  apply syncToFirestore_cases in Hsync as (_ & _ & _ & _ & _ & _ & Hcases).
  destruct (catchLog_silent c) as (_ & _ & Hc2 & _).
  destruct Hcases as [(e & _ & Hthrow & -> & Hs)|[(-> & -> & Hs)|(b & Hb & Hne & Hcommit)]].
  - left. trace_simpl. rewrite Hw, Hc2. eauto 6.
  - left. trace_simpl. rewrite Hw, Hc2. eauto 6.
  - right. exists b. trace_simpl. rewrite Hw, Hc2.
    destruct (commitOk world); destruct Hcommit as (_ & -> & ->); done.
Qed.

(** An invocation that makes no remote call commits nothing. *)
Lemma no_call_no_write world fromDate toDate s :
  let out := invoke world fromDate toDate s in
  remoteCalls (trace out) = [] →
  cacheWrites (trace out) = [] ∧ store (final out) = store s.
Proof.
  intros out. subst out.
  destruct (invoke_path world fromDate toDate s) as (c & s' & t & Hpath & ->).
  inversion Hpath as [| | |from to docs c' s'' t' ? ? ? ? ? Hapi]; subst;
    simpl; try done.
  apply callFormattedApi_cases in Hapi as (t'' & -> & _).
  trace_simpl. by destruct (hasOutliers _).
Qed.

(** C5 (idempotent write): the identifier of a record depends on its
    [type] and [date] only.  Take two invocations for the same range, one
    after the other, the provider giving the same records to both, the
    first one refilling and committing.  Every identifier written is
    [{type}_{yyyyMMdd_HHmmss of date}] for its record; a batch of the
    second invocation carries the same identifiers as the batch of the
    first; and the second invocation adds no document: the collection
    keeps its identifiers and its size, the second commit replacing
    documents the first one wrote. *)
Theorem refill_twice_same_documents world1 world2 fromDate toDate s items :
  let out1 := invoke world1 fromDate toDate s in
  let out2 := invoke world2 fromDate toDate (final out1) in
  accepted (fetchResult world1) = Some items →
  accepted (fetchResult world2) = Some items →
  remoteCalls (trace out1) ≠ [] →
  commitOk world1 = true →
  (∀ a b, type a = type b → date a = date b → docId a = docId b) ∧
  (∀ b, cacheWrites (trace out1) = [b] ∨ cacheWrites (trace out2) = [b] →
        Forall2 keyedByTypeAndDate b items) ∧
  (∀ b1 b2, cacheWrites (trace out1) = [b1] → cacheWrites (trace out2) = [b2] →
            b1.*1 = b2.*1) ∧
  (∀ b2, cacheWrites (trace out2) = [b2] → commitOk world2 = true →
         store (final out2) = applyBatch b2 (store (final out1))) ∧
  dom (store (final out2)) = dom (store (final out1)) ∧
  size (store (final out2)) = size (store (final out1)).
Proof.
  intros out1 out2 Hacc1 Hacc2 Hcall1 Hok1.
  split; [apply docId_deterministic|].
  assert (∀ m1 m2 : gmap string Document, dom m1 = dom m2 → size m1 = size m2)
    as Hsize by (intros m1 m2 Hd; by rewrite <- !size_dom, Hd).
  pose proof (refilled_writes _ _ _ _ _ _
                (refilled_of_call world1 fromDate toDate s Hcall1) Hacc1) as Hw1.
  fold out1 in Hw1.
  assert ((cacheWrites (trace out2) = [] ∧ store (final out2) = store (final out1)) ∨
          (∃ b, Forall2 stagedFor b items ∧ items ≠ [] ∧
             cacheWrites (trace out2) = [b] ∧
             store (final out2) = if commitOk world2
                                  then applyBatch b (store (final out1))
                                  else store (final out1))) as Hw2.
  { destruct (decide (remoteCalls (trace out2) = [])) as [Hno|Hcall2].
    - left. by apply no_call_no_write.
    - apply refilled_of_call in Hcall2.
      destruct (refilled_writes _ _ _ _ _ _ Hcall2 Hacc2) as [(_ & ? & ?)|?];
        [by left|by right]. }
  destruct Hw1 as [(Hwhy & Hnone1 & Hs1)|(b1 & Hb1 & Hne & Hone1 & Hs1)];
    destruct Hw2 as [(Hnone2 & Hs2)|(b2 & Hb2 & Hne2 & Hone2 & Hs2)].
  - rewrite Hnone1, Hnone2, Hs2. split_and!; try done. by intros b [|].
  - exfalso. destruct Hwhy as [->|(e & Hthrow)].
    + done.
    + exact (stagedFor_no_throw _ _ e Hb2 Hthrow).
  - rewrite Hone1, Hnone2, Hs2. split_and!; try done.
    intros b [[= <-]|]; [|done].
    eapply Forall2_impl; [exact Hb1|]. apply stagedFor_keyed.
  - rewrite Hone1, Hone2, Hs2, Hs1, Hok1.
    pose proof (stagedFor_same_ids _ _ _ Hb1 Hb2) as Hids.
    assert (dom (applyBatch b2 (applyBatch b1 (store s)))
            = dom (applyBatch b1 (store s))) as Hdom
      by (by rewrite !dom_applyBatch, Hids, (assoc_L (∪)), (idemp_L (∪))).
    split_and!.
    + intros b [[= <-]|[= <-]];
        (eapply Forall2_impl; [eassumption|]); apply stagedFor_keyed.
    + by intros ? ? [= <-] [= <-].
    + intros ? [= <-] ->. done.
    + by destruct (commitOk world2).
    + apply Hsize. by destruct (commitOk world2).
Qed.
End Idempotence.

(** ** Provider data and the validator *)

Import Scenario.

(** C8 (no validation of provider data): the API block does not read the
    threshold at all, it runs the same under any threshold; and on the
    scenario whose provider answer holds a record with
    [sell = 520,000,000 > MAX], that record is published with the rest of
    the answer, is in the result, and is stored in the collection. *)
Theorem provider_outliers_bypass_validation :
  (∀ (rt : Runtime) maxPrice world fromDate toDate s,
      callFormattedApi (rt := withThreshold maxPrice rt) world fromDate toDate s
      = callFormattedApi (rt := rt) world fromDate toDate s) ∧
  (let out := invoke (rt := vietnam) (answering spikedSeries)
                "01/01/2026" "05/01/2026" (idle ∅) in
   spike ∈ spikedSeries ∧
   aboveThreshold (rt := vietnam) spike ∧
   published (trace out) = [spikedSeries] ∧
   spike ∈ data (final out) ∧
   store (final out) !! "bar_20260103_090000"
     = Some (mkDoc spike "SJC" "2026-01-06T01:00:00.000Z")).
Proof.
  split; [reflexivity|].
  intros out.
  assert (data (final out) = spikedSeries) as -> by (vm_compute; reflexivity).
  split_and!.
  - unfold spikedSeries. set_solver.
  - right. vm_compute. reflexivity.
  - vm_compute. reflexivity.
  - unfold spikedSeries. set_solver.
  - vm_compute. reflexivity.
Qed.

(** ** Concrete runs of the claims *)

Lemma malformed_range_fails_before_io_witness :
  let out := invoke (rt := vietnam) (answering freshSeries)
               "2026-01-01" "05/01/2026" (idle healthyCache) in
  cacheReads (trace out) = [] ∧ remoteCalls (trace out) = [] ∧
  data (final out) = [] ∧ promise out = Fulfilled.
Proof.
  intros out.
  destruct (malformed_range_fails_before_io (rt := vietnam) (answering freshSeries)
              "2026-01-01" "05/01/2026" (idle healthyCache))
    as (_ & Hr & Hc & _ & _ & Hd & _ & _ & Hp).
  - left. vm_compute. reflexivity.
  - by split_and!.
Defined.

Lemma cache_hit_serves_cached_witness :
  let out := invoke (rt := vietnam) serverError
               "01/01/2026" "05/01/2026" (idle healthyCache) in
  published (trace out) = [freshSeries] ∧
  remoteCalls (trace out) = [] ∧ cacheWrites (trace out) = [].
Proof.
  intros out.
  destruct (cache_hit_serves_cached (rt := vietnam) serverError
              "01/01/2026" "05/01/2026" (idle healthyCache)
              "2025-12-31T17:00:00.000Z" "2026-01-05T16:59:59.999Z")
    as (Hp & _ & _ & Hc & Hw & _).
  - vm_compute. reflexivity.
  - reflexivity.
  - vm_compute. discriminate.
  - vm_compute. repeat constructor.
  - split_and!; [|exact Hc|exact Hw].
    etrans; [exact Hp|]. vm_compute. reflexivity.
Defined.

Lemma outlier_vetoes_whole_series_witness :
  let out := invoke (rt := vietnam) (answering freshSeries)
               "01/01/2026" "05/01/2026" (idle corruptCache) in
  remoteCalls (trace out) = [formattedUrl "01/01/2026" "05/01/2026"] ∧
  published (trace out) = [freshSeries].
Proof.
  intros out.
  destruct (outlier_vetoes_whole_series (rt := vietnam) (answering freshSeries)
              "01/01/2026" "05/01/2026" (idle corruptCache)
              "2025-12-31T17:00:00.000Z" "2026-01-05T16:59:59.999Z")
    as (Hc & _ & Hp).
  - vm_compute. reflexivity.
  - reflexivity.
  - vm_compute. apply Exists_cons_tl, Exists_cons_hd. right. reflexivity.
  - split; [exact Hc|exact Hp].
Defined.

Lemma empty_cache_always_refills_witness :
  let out := invoke (rt := vietnam) (answering freshSeries)
               "01/01/2026" "05/01/2026" (idle ∅) in
  remoteCalls (trace out) = [formattedUrl "01/01/2026" "05/01/2026"] ∧
  published (trace out) = [freshSeries].
Proof.
  intros out.
  destruct (empty_cache_always_refills (rt := vietnam) (answering freshSeries)
              "01/01/2026" "05/01/2026" (idle ∅)
              "2025-12-31T17:00:00.000Z" "2026-01-05T16:59:59.999Z")
    as (Hc & _ & Hp).
  - vm_compute. reflexivity.
  - reflexivity.
  - vm_compute. reflexivity.
  - split; [exact Hc|exact Hp].
Defined.

Lemma provider_failure_is_silent_witness :
  let out := invoke (rt := vietnam) serverError
               "01/01/2026" "05/01/2026" (idle corruptCache) in
  published (trace out) = [] ∧ data (final out) = [] ∧
  store (final out) = corruptCache ∧ promise out = Fulfilled.
Proof.
  intros out.
  destruct (provider_failure_is_silent (rt := vietnam) serverError
              "01/01/2026" "05/01/2026" (idle corruptCache))
    as (Hp & Hd & _ & Hs & _ & Hf).
  - vm_compute. discriminate.
  - apply NonSuccessStatus. reflexivity.
  - by split_and!.
Defined.

Lemma refill_twice_same_documents_witness :
  let out1 := invoke (rt := vietnam) (answering spikedSeries)
                "01/01/2026" "05/01/2026" (idle ∅) in
  let out2 := invoke (rt := vietnam) (answering spikedSeries)
                "01/01/2026" "05/01/2026" (final out1) in
  cacheWrites (trace out2) ≠ [] ∧
  dom (store (final out2)) = dom (store (final out1)) ∧
  size (store (final out2)) = size (store (final out1)).
Proof.
  intros out1 out2.
  destruct (refill_twice_same_documents (rt := vietnam)
              (answering spikedSeries) (answering spikedSeries)
              "01/01/2026" "05/01/2026" (idle ∅) spikedSeries)
    as (_ & _ & _ & _ & Hdom & Hsize).
  - reflexivity.
  - reflexivity.
  - vm_compute. discriminate.
  - reflexivity.
  - split_and!; [|exact Hdom|exact Hsize]. vm_compute. discriminate.
Defined.

Lemma fresh_result_survives_write_failure_witness :
  let out := invoke (rt := vietnam) (readOnly freshSeries)
               "01/01/2026" "05/01/2026" (idle ∅) in
  data (final out) = freshSeries ∧ store (final out) = ∅ ∧
  promise out = Fulfilled.
Proof.
  intros out.
  destruct (fresh_result_survives_write_failure (rt := vietnam)
              (readOnly freshSeries) "01/01/2026" "05/01/2026" (idle ∅)
              (envelope freshSeries) freshSeries)
    as (_ & Hd & _ & Hf & Hs & _).
  - vm_compute. discriminate.
  - reflexivity.
  - reflexivity.
  - reflexivity.
  - discriminate.
  - split_and!; [exact Hd|exact (Hs eq_refl)|exact Hf].
Defined.

Lemma empty_refill_writes_nothing_witness :
  let out := invoke (rt := vietnam) (answering [])
               "01/01/2026" "05/01/2026" (idle ∅) in
  published (trace out) = [[]] ∧ data (final out) = [] ∧
  cacheWrites (trace out) = [].
Proof.
  intros out.
  destruct (empty_refill_writes_nothing (rt := vietnam) (answering [])
              "01/01/2026" "05/01/2026" (idle ∅) (envelope []))
    as (Hp & Hd & _ & Hw & _).
  - vm_compute. discriminate.
  - reflexivity.
  - reflexivity.
  - reflexivity.
  - by split_and!.
Defined.

(** ** Every run of the API block *)

Lemma busyChanges_app t1 t2 : busyChanges (t1 ++ t2) = busyChanges t1 ++ busyChanges t2.
Proof. apply omap_app. Qed.
Lemma loggedErrors_app t1 t2 : loggedErrors (t1 ++ t2) = loggedErrors t1 ++ loggedErrors t2.
Proof. apply omap_app. Qed.
#[global] Hint Rewrite busyChanges_app loggedErrors_app : trace.

Section Runs.
Context {rt : Runtime} (world : Oracle).

Lemma callFormattedApi_run fromDate toDate s c s' t :
  callFormattedApi world fromDate toDate s = (c, s', t) →
  ApiRun world fromDate toDate s c s' t.
Proof.
  unfold callFormattedApi, bind, console, emit, fetch. simpl.
  destruct (fetchResult world) as [res|] eqn:Hres; simpl.
  2: { intros [= <- <- <-]. by constructor. }
  destruct (res_ok res) eqn:Hok; simpl.
  2: { intros [= <- <- <-]. by econstructor. }
  unfold res_json.
  destruct (body res) as [|[|success payload]] eqn:Hbody; simpl.
  1,2: intros [= <- <- <-]; by econstructor.
  destruct success; simpl.
  2: { intros [= <- <- <-]. econstructor; eauto. }
  destruct payload as [|items]; simpl.
  { intros [= <- <- <-]. econstructor; eauto. }
  assert (accepted (fetchResult world) = Some items) as Hacc
    by (rewrite Hres; simpl; by rewrite Hok, Hbody).
  unfold setData.
  destruct (syncToFirestore _ _ _) as [[c2 s2] t2] eqn:Hsync.
  apply syncToFirestore_cases in Hsync
    as (Hl & Hd & _ & _ & _ & Hnil & Hcases). simpl in *.
  assert (s2 = mkState (loading s) items (store s2) (ticks s2)) as Hs2
    by (destruct s2; simpl in *; congruence).
  intros Heq.
  assert (c = c2 ∧ s' = s2 ∧
          t = called fromDate toDate (EvSetData items :: t2)) as (-> & -> & ->)
    by (destruct c2; by injection Heq as <- <- <-).
  rewrite Hs2.
  destruct Hcases as [(e & -> & Hthrow & -> & ->)
                     |[(-> & -> & ->)|(b & Hb & Hne & Hcommit)]].
  - apply StagingThrows; [done| |done].
    intros ->. by apply Exists_nil in Hthrow.
  - destruct (Hnil eq_refl) as (-> & _ & ->). simpl. by apply EmptySeries.
  - destruct (commitOk world) eqn:Hcommitted;
      destruct Hcommit as (-> & -> & ->); by constructor.
Qed.

End Runs.

(** ** Lookups after a commit *)

Lemma lookup_applyBatch_notin (batch : WriteBatch) (coll : gmap string Document) key :
  key ∉ omap collectionKey batch.*1 → applyBatch batch coll !! key = coll !! key.
Proof.
  unfold applyBatch. revert coll.
  induction batch as [|[id d] batch IH]; intros coll Hnot; simpl in *; [done|].
  destruct (collectionKey id) as [key'|]; simpl in *; [|by apply IH].
  apply not_elem_of_cons in Hnot as [Hne Hnot].
  rewrite IH by done. by apply lookup_insert_ne.
Qed.

Lemma plainBatch_keys (batch : WriteBatch) :
  plainBatch batch → omap collectionKey batch.*1 = batch.*1.
Proof.
  induction 1 as [|[id d] batch Hkey _ IH]; [done|].
  csimpl in *. by rewrite Hkey, IH.
Qed.

Lemma applyBatch_cons_plain id d (batch : WriteBatch) (coll : gmap string Document) :
  collectionKey id = Some id →
  applyBatch ((id, d) :: batch) coll = applyBatch batch (<[id:=d]> coll).
Proof. intros Hkey. unfold applyBatch. simpl. by rewrite Hkey. Qed.

Lemma lookup_applyBatch_in (batch : WriteBatch) (coll : gmap string Document) id :
  plainBatch batch → id ∈ batch.*1 →
  ∃ d, (id, d) ∈ batch ∧ applyBatch batch coll !! id = Some d.
Proof.
  intros Hplain. revert coll.
  induction Hplain as [|[id' d] batch Hkey Hplain IH]; intros coll Hin.
  - by apply elem_of_nil in Hin.
  - rewrite applyBatch_cons_plain by done.
    destruct (decide (id ∈ batch.*1)) as [Hlater|Hnot].
    + destruct (IH (<[id':=d]> coll) Hlater) as (d' & Hd' & Hlook).
      exists d'. split; [by right|done].
    + rewrite fmap_cons in Hin. apply elem_of_cons in Hin as [->|Hin]; [|done].
      exists d. split; [by left|].
      rewrite lookup_applyBatch_notin by (by rewrite plainBatch_keys).
      apply lookup_insert_eq.
Qed.

Lemma NoDup_fst_functional (batch : WriteBatch) id d d' :
  NoDup batch.*1 → (id, d) ∈ batch → (id, d') ∈ batch → d = d'.
Proof.
  induction batch as [|[id0 d0] batch IH]; simpl.
  - intros _ Hin. by apply elem_of_nil in Hin.
  - intros [Hnot Hnodup]%NoDup_cons Hin Hin'.
    assert (∀ x, (id0, x) ∈ batch → False) as Hfresh
      by (intros x Hx; apply Hnot, list_elem_of_fmap; by exists (id0, x)).
    apply elem_of_cons in Hin as [Heq|Hin];
      apply elem_of_cons in Hin' as [Heq'|Hin'].
    + congruence.
    + injection Heq as -> ->. exfalso. eauto.
    + injection Heq' as -> ->. exfalso. eauto.
    + eauto.
Qed.

Lemma lookup_applyBatch_NoDup (batch : WriteBatch) (coll : gmap string Document) id d :
  plainBatch batch → NoDup batch.*1 → (id, d) ∈ batch →
  applyBatch batch coll !! id = Some d.
Proof.
  intros Hplain Hnodup Hin.
  assert (id ∈ batch.*1) as Hid
    by (apply list_elem_of_fmap; by exists (id, d)).
  destruct (lookup_applyBatch_in batch coll id Hplain Hid) as (d' & Hin' & ->).
  f_equal. eapply NoDup_fst_functional; eauto.
Qed.

(** ** Completeness of the range query *)

Lemma runQuery_elem_of coll lower upper d :
  d ∈ runQuery coll lower upper ↔
  ∃ id, coll !! id = Some d ∧
        (lower ≤ date (fields d))%string ∧ (date (fields d) ≤ upper)%string.
Proof.
  unfold runQuery. rewrite list_elem_of_fmap. split.
  - intros ([id d'] & -> & Hin).
    rewrite merge_sort_Permutation in Hin.
    apply list_elem_of_filter in Hin as [Hr Hin].
    exists id. split; [by apply elem_of_map_to_list in Hin|exact Hr].
  - intros (id & Hlook & Hr). exists (id, d). split; [done|].
    rewrite merge_sort_Permutation. apply list_elem_of_filter.
    split; [exact Hr|by apply elem_of_map_to_list].
Qed.

(** ** Every run of an invocation *)

(** Split an invocation into its paths and, for a refill, into the runs
    of the API block. *)
Ltac all_runs world fromDate toDate s :=
  let c := fresh "c" in
  let s' := fresh "s'" in
  let t := fresh "t" in
  let Hpath := fresh "Hpath" in
  let Hapi := fresh "Hapi" in
  destruct (invoke_path world fromDate toDate s) as (c & s' & t & Hpath & ->);
  inversion Hpath as [ ? | ? ? ? ? ? | ? ? ? ? ? ? ? ? ? | ? ? ? ? ? ? ? ? ? ? ? Hapi ];
  subst;
  [ | | | apply callFormattedApi_run in Hapi; inversion Hapi; subst ];
  unfold called, catchLog.

(** Close a run of the API block that rejected the answer, against the
    hypothesis [Hacc] that the answer is accepted. *)
Ltac not_accepted Hacc :=
  exfalso; revert Hacc;
  repeat match goal with
         | H : fetchResult _ = _ |- _ => rewrite H; clear H
         end; simpl;
  repeat match goal with
         | H : res_ok _ = _ |- _ => rewrite H; clear H
         | H : body _ = _ |- _ => rewrite H; clear H
         end; simpl;
  try match goal with H : _ = false ∨ _ = NotArray |- _ => destruct H; subst end;
  intros Hacc; repeat case_match; simplify_eq.

Section Universal.
Context {rt : Runtime} (world : Oracle).

(** The collection is changed by a successful commit and by nothing
    else. *)
Lemma invoke_store fromDate toDate s :
  let out := invoke world fromDate toDate s in
  store (final out) = match cacheWrites (trace out) with
                      | b :: _ => if commitOk world then applyBatch b (store s)
                                  else store s
                      | [] => store s
                      end.
Proof.
  intros out. subst out. all_runs world fromDate toDate s; simpl;
    try done; trace_simpl;
    repeat match goal with |- context [if hasOutliers ?x then _ else _] =>
             destruct (hasOutliers x) end; simpl; try done;
    by repeat match goal with H : commitOk world = _ |- _ => rewrite H end.
Qed.

(** The result is what was published last, or what it was. *)
Lemma invoke_data fromDate toDate s :
  let out := invoke world fromDate toDate s in
  data (final out) = default (data s) (last (published (trace out))).
Proof.
  intros out. subst out. all_runs world fromDate toDate s; simpl;
    try done; trace_simpl;
    repeat match goal with |- context [if hasOutliers ?x then _ else _] =>
             destruct (hasOutliers x) end; simpl; done.
Qed.

Lemma dom_applyBatch_mono (batch : WriteBatch) (coll : gmap string Document) :
  dom coll ⊆ dom (applyBatch batch coll).
Proof. rewrite dom_applyBatch. apply union_subseteq_r. Qed.

Lemma invoke_dom_mono fromDate toDate s :
  dom (store s) ⊆ dom (store (final (invoke world fromDate toDate s))).
Proof.
  rewrite invoke_store.
  destruct (cacheWrites _) as [|b ?]; [done|].
  destruct (commitOk world); [apply dom_applyBatch_mono|done].
Qed.

Lemma invoke_loading fromDate toDate s :
  loading (final (invoke world fromDate toDate s)) = false.
Proof.
  by destruct (invoke_path world fromDate toDate s) as (c & s' & t & _ & ->).
Qed.

(** X6 (no effect twice): an invocation reads the collection at most
    once, calls the provider at most once, publishes at most once and
    commits at most once; it makes no provider call without a read, and
    no commit without a provider call and a publication. *)
Theorem each_effect_at_most_once fromDate toDate s :
  let out := invoke world fromDate toDate s in
  (length (cacheReads (trace out)) ≤ 1)%nat ∧
  (length (remoteCalls (trace out)) ≤ 1)%nat ∧
  (length (published (trace out)) ≤ 1)%nat ∧
  (length (cacheWrites (trace out)) ≤ 1)%nat ∧
  (length (remoteCalls (trace out)) ≤ length (cacheReads (trace out)))%nat ∧
  (length (cacheWrites (trace out)) ≤ length (remoteCalls (trace out)))%nat ∧
  (length (cacheWrites (trace out)) ≤ length (published (trace out)))%nat.
Proof.
  intros out. subst out. all_runs world fromDate toDate s; simpl;
    trace_simpl;
    repeat match goal with |- context [if hasOutliers ?x then _ else _] =>
             destruct (hasOutliers x) end; simpl; lia.
Qed.

(** X10 (nothing after the clear): once the busy flag has been cleared,
    the invocation reads, fetches, publishes, commits and logs nothing
    more; all that can follow is the cleanup clearing the flag again.
    The flag is set exactly once, first. *)
Theorem nothing_after_busy_cleared fromDate toDate s :
  let out := invoke world fromDate toDate s in
  Forall (fun e => e = EvSetLoading false) (afterFirstClear (trace out)) ∧
  (∃ clears, busyChanges (trace out) = true :: false :: clears ∧
             Forall (fun b => b = false) clears).
Proof.
  intros out. subst out. all_runs world fromDate toDate s; simpl;
    trace_simpl;
    repeat match goal with |- context [if hasOutliers ?x then _ else _] =>
             destruct (hasOutliers x) end; simpl;
    (split; [repeat constructor|eexists; split; [reflexivity|repeat constructor]]).
Qed.

Lemma hasOutliers_iff series :
  hasOutliers series = true ↔ Exists aboveThreshold series.
Proof.
  split; [|apply hasOutliers_above].
  induction series as [|item series IH]; simpl; [done|].
  intros [Hhere|Hlater]%orb_true_iff.
  - left. unfold isOutlier in Hhere. by apply orb_true_iff in Hhere.
  - right. by apply IH.
Qed.

(** X1 (read failure): when the read of the collection is rejected, the
    error is logged and the invocation ends there: no provider call, no
    publication, no commit; the result and the collection are as they
    were and the promise is fulfilled. *)
Theorem read_failure_is_silent fromDate toDate s lower upper :
  let out := invoke world fromDate toDate s in
  cacheReads (trace out) = [(lower, upper)] →
  firestoreUp world = false →
  (∃ e, trace out = [EvSetLoading true; EvGetDocs lower upper;
                     EvConsole (ErrorHistorySync e); EvSetLoading false]) ∧
  data (final out) = data s ∧
  store (final out) = store s ∧
  loading (final out) = false ∧
  promise out = Fulfilled.
Proof.
  intros out. subst out.
  destruct (invoke_path world fromDate toDate s) as (c & s' & t & Hpath & ->).
  intros Hread Hdown.
  inversion Hpath; subst; simpl in *; try congruence.
  injection Hread as <- <-. split_and!; try done. by eexists.
Qed.

(** X2 (thrown provider failures): when [fetch] itself is rejected, or
    the status is not 2xx, or the body is not JSON, or it is [null], the
    failure is logged exactly once - for a non-2xx status as
    [Error("Failed to fetch history")], whatever the body holds - and
    nothing is published or committed; the result and the collection
    are as they were. *)
Theorem thrown_provider_failure_is_logged_once fromDate toDate s :
  let out := invoke world fromDate toDate s in
  remoteCalls (trace out) ≠ [] →
  fetchResult world = None ∨
    (∃ res, fetchResult world = Some res ∧
            (res_ok res = false ∨ body res = BodyInvalid ∨
             body res = BodyJson JsonNull)) →
  (∃ e, loggedErrors (trace out) = [e] ∧
        ∀ res, fetchResult world = Some res → res_ok res = false →
               e = Error "Failed to fetch history") ∧
  published (trace out) = [] ∧
  cacheWrites (trace out) = [] ∧
  data (final out) = data s ∧
  store (final out) = store s ∧
  promise out = Fulfilled.
Proof.
  intros out. subst out. intros Hcall Hfail.
  assert (accepted (fetchResult world) = None) as Hnot.
  { destruct Hfail as [->|(res & -> & [Hok|[Hbody|Hbody]])]; simpl;
      [done|by rewrite Hok|rewrite Hbody; by destruct (res_ok res)..]. }
  revert Hcall.
  all_runs world fromDate toDate s; simpl; try done; intros _;
    try congruence;
    trace_simpl;
    repeat match goal with |- context [if hasOutliers ?x then _ else _] =>
             destruct (hasOutliers x) end; simpl;
    try (split_and!; try done; eexists; split; [done|];
         intros; congruence).
  all: exfalso;
    destruct Hfail as [?|(res' & ? & [?|[?|?]])]; congruence.
Qed.

(** X3 (rejected envelope): a 2xx answer whose [success] is false or
    whose [data] is not an array ends the invocation by a plain
    [return]: unlike the thrown failures, nothing at all is logged as an
    error; the trace ends with the miss, the call and the cleanup. *)
Theorem rejected_envelope_is_not_logged fromDate toDate s res success payload :
  let out := invoke world fromDate toDate s in
  remoteCalls (trace out) ≠ [] →
  fetchResult world = Some res →
  res_ok res = true →
  body res = BodyJson (JsonObject success payload) →
  success = false ∨ payload = NotArray →
  loggedErrors (trace out) = [] ∧
  (∃ pre, trace out = pre ++ [EvConsole LogCacheMiss;
                              EvFetch (formattedUrl fromDate toDate);
                              EvSetLoading false]) ∧
  data (final out) = data s ∧
  store (final out) = store s.
Proof.
  intros out. subst out. intros Hcall Hres Hok Hbody Hrej.
  assert (accepted (fetchResult world) = None) as Hnot.
  { rewrite Hres. simpl. rewrite Hok, Hbody.
    destruct Hrej as [->| ->]; [done|by destruct success]. }
  revert Hcall.
  all_runs world fromDate toDate s; simpl; try done; intros _;
    try congruence.
  trace_simpl.
  match goal with |- context [if hasOutliers ?x then _ else _] =>
    destruct (hasOutliers x) end; simpl;
    (split_and!; try done);
    [by exists [EvSetLoading true; EvGetDocs (isoString (startOfDayMs from))
                  (isoString (endOfDayMs to)); EvConsole WarnSuspiciousData]
    |by exists [EvSetLoading true; EvGetDocs (isoString (startOfDayMs from))
                  (isoString (endOfDayMs to))]].
Qed.
End Universal.

Section Refills.
Context {rt : Runtime} (world : Oracle).

Lemma doc_plain_key id :
  doc "gold_price_history" id = inr ["gold_price_history"; id] →
  collectionKey id = Some id.
Proof.
  unfold doc, collectionKey.
  rewrite bool_decide_eq_false_2 by done.
  destruct (_ || _); [done|].
  change (segments "gold_price_history") with ["gold_price_history"].
  destruct (Nat.even _); [|done].
  intros [= ->]. done.
Qed.

Lemma plainlyKeyed_referenced item :
  plainlyKeyed item → ∃ ref, docRefOf item = inr ref.
Proof.
  intros (id & Hid & Hdoc). unfold docRefOf. rewrite Hid. eauto.
Qed.

Lemma plainlyKeyed_not_thrown items e :
  Forall plainlyKeyed items →
  Exists (fun item => docRefOf item = inl e) items → False.
Proof.
  intros Hall (item & Hin & Hthrow)%Exists_exists.
  rewrite Forall_forall in Hall.
  destruct (plainlyKeyed_referenced item (Hall item Hin)). congruence.
Qed.

Lemma plainlyKeyed_batch b items :
  Forall plainlyKeyed items → Forall2 stagedFor b items → plainBatch b.
Proof.
  intros Hall Hb. revert Hall.
  induction Hb as [|entry item b items (Hid & _) _ IH];
    intros Hall; [constructor|].
  apply Forall_cons in Hall as [(id & Hid' & Hdoc) Hall].
  constructor; [|by apply IH].
  apply doc_plain_key. congruence.
Qed.

(** X4 (what a commit stores): when the accepted series is not empty,
    every record has a valid date and an identifier without a slash to
    interpret, and the commit succeeds, one batch of
    one write per record is committed, the number of records is logged,
    no error is logged, and afterwards every record's identifier holds a
    document tagged [SJC] whose record has that same identifier and
    comes from the series; when the identifiers of the series are
    pairwise distinct, it holds the record itself. *)
Theorem committed_records_are_retrievable fromDate toDate s items :
  let out := invoke world fromDate toDate s in
  remoteCalls (trace out) ≠ [] →
  accepted (fetchResult world) = Some items →
  items ≠ [] →
  Forall plainlyKeyed items →
  commitOk world = true →
  ∃ b,
    cacheWrites (trace out) = [b] ∧
    Forall2 stagedFor b items ∧
    store (final out) = applyBatch b (store s) ∧
    EvConsole (LogSaved (length items)) ∈ trace out ∧
    loggedErrors (trace out) = [] ∧
    (∀ item, item ∈ items →
       ∃ id d, docId item = inr id ∧ store (final out) !! id = Some d ∧
               docId (fields d) = inr id ∧ provider d = "SJC" ∧
               fields d ∈ items) ∧
    (NoDup b.*1 →
     ∀ item, item ∈ items →
       ∃ id d, docId item = inr id ∧ store (final out) !! id = Some d ∧
               fields d = item).
Proof.
  intros out. subst out. intros Hcall Hacc Hne Hvalid Hok. revert Hcall.
  all_runs world fromDate toDate s; simpl; try done; intros _;
    try (not_accepted Hacc; fail);
    repeat match goal with
           | H : accepted _ = Some [] |- _ =>
               rewrite Hacc in H; injection H as ->
           | H : accepted _ = Some ?x |- _ =>
               is_var x; rewrite Hacc in H; injection H as <-
           end;
    try done; try congruence;
    try (exfalso; eapply plainlyKeyed_not_thrown; eauto; fail).
  match goal with H : Forall2 stagedFor ?b items |- _ =>
    rename H into Hb; exists b end.
  pose proof (plainlyKeyed_batch _ _ Hvalid Hb) as Hplain.
  assert (∀ item, item ∈ items → ∃ entry, entry ∈ b ∧ stagedFor entry item)
    as Hentry.
  { intros item (i & Hi)%list_elem_of_lookup.
    destruct (Forall2_lookup_r _ _ _ _ _ Hb Hi) as (entry & Hlook & Hst).
    exists entry. split; [|done]. apply list_elem_of_lookup. eauto. }
  assert (∀ entry, entry ∈ b → ∃ item, item ∈ items ∧ stagedFor entry item)
    as Hitem.
  { intros entry (i & Hi)%list_elem_of_lookup.
    destruct (Forall2_lookup_l _ _ _ _ _ Hb Hi) as (item & Hlook & Hst).
    exists item. split; [|done]. apply list_elem_of_lookup. eauto. }
  trace_simpl.
  split_and!; try done.
  - by destruct (hasOutliers _).
  - destruct (hasOutliers _); simpl; rewrite !elem_of_cons; auto 20.
  - by destruct (hasOutliers _).
  - intros item Hin. destruct (Hentry item Hin) as ([id d0] & Hin0 & Hid & _).
    simpl in Hid.
    destruct (lookup_applyBatch_in b (store s) id Hplain) as (d & Hd & Hlook).
    { apply list_elem_of_fmap. by exists (id, d0). }
    destruct (Hitem _ Hd) as (item' & Hin' & Hid' & Hf & Hp & _). simpl in *.
    exists id, d. split_and!; try done; by rewrite Hf.
  - intros Hnodup item Hin.
    destruct (Hentry item Hin) as ([id d] & Hin0 & Hid & Hf & _). simpl in *.
    exists id, d. split_and!; try done.
    by apply lookup_applyBatch_NoDup.
Qed.

(** X5 (when the cache is served): with the read answered, the
    invocation makes no provider call exactly when the snapshot is not
    empty and no record of it has [buy > MAX] or [sell > MAX]; it then
    publishes the snapshot.  A price that is NaN is not above the
    threshold, so a series holding one is served. *)
Theorem cache_served_iff_nothing_above fromDate toDate s lower upper :
  let out := invoke world fromDate toDate s in
  let docs := runQuery (store s) lower upper in
  cacheReads (trace out) = [(lower, upper)] →
  firestoreUp world = true →
  (remoteCalls (trace out) = [] ↔
   docs ≠ [] ∧ Forall (fun item => ¬ aboveThreshold item) (doc_data <$> docs)) ∧
  (remoteCalls (trace out) = [] →
   published (trace out) = [doc_data <$> docs] ∧
   data (final out) = doc_data <$> docs).
Proof.
  intros out docs. subst out docs.
  destruct (invoke_path world fromDate toDate s) as (c & s' & t & Hpath & ->).
  intros Hread Hup.
  inversion Hpath as [ | | from to docs ? ? ? ? Hne Hout
                     | from to docs c' s'' t' ? ? ? ? Hmiss Hapi ]; subst;
    simpl in Hread; try congruence.
  - injection Hread as <- <-. simpl in *. split_and!; try done.
    split; [intros _|done]. split; [done|].
    apply Forall_Exists_neg. intros Hex%hasOutliers_above. congruence.
  - injection Hread as <- <- _. simpl in *.
    apply callFormattedApi_cases in Hapi as (t'' & -> & _).
    trace_simpl. split.
    + split.
      * by destruct (hasOutliers _).
      * intros (Hne & Hall). exfalso.
        destruct Hmiss as [Hnil|Hout]; [done|].
        apply hasOutliers_iff in Hout.
        by apply Forall_Exists_neg in Hall.
    + by destruct (hasOutliers _).
Qed.

(** X7 (what a cache hit serves): when the read is answered and no
    provider call follows, the result holds exactly the records of the
    stored documents whose [date] lies between the two bounds, the
    bounds included, one entry per document. *)
Theorem cache_hit_is_the_range fromDate toDate s lower upper :
  let out := invoke world fromDate toDate s in
  cacheReads (trace out) = [(lower, upper)] →
  firestoreUp world = true →
  remoteCalls (trace out) = [] →
  (∀ item, item ∈ data (final out) ↔
     ∃ id d, store s !! id = Some d ∧ fields d = item ∧
             (lower ≤ date item)%string ∧ (date item ≤ upper)%string) ∧
  length (data (final out))
    = length (filter (inRange lower upper) (map_to_list (store s))).
Proof.
  intros out. subst out.
  destruct (invoke_path world fromDate toDate s) as (c & s' & t & Hpath & ->).
  intros Hread Hup.
  inversion Hpath as [ | | from to docs ? ? ? ? Hne Hout
                     | from to docs c' s'' t' ? ? ? ? Hmiss Hapi ]; subst;
    simpl in Hread; try congruence.
  - injection Hread as <- <-. simpl. intros _. split.
    + intros item. rewrite list_elem_of_fmap. split.
      * intros (d & -> & (id & Hlook & Hr)%runQuery_elem_of). by exists id, d.
      * intros (id & d & Hlook & <- & Hr). exists d. split; [done|].
        apply runQuery_elem_of. by exists id.
    + unfold runQuery. by rewrite !length_fmap, merge_sort_Permutation.
  - apply callFormattedApi_cases in Hapi as (t'' & -> & _).
    trace_simpl. by destruct (hasOutliers _).
Qed.

(** X12 (only written documents change): a document of the collection
    that no write of a committed batch refers to is after the invocation
    what it was before, present or absent. *)
Theorem only_written_documents_change fromDate toDate s key :
  let out := invoke world fromDate toDate s in
  (∀ b, b ∈ cacheWrites (trace out) → key ∉ omap collectionKey b.*1) →
  store (final out) !! key = store s !! key.
Proof.
  intros out Hnot. subst out. rewrite invoke_store.
  destruct (cacheWrites _) as [|b rest]; [done|].
  destruct (commitOk world); [|done].
  apply lookup_applyBatch_notin, Hnot. by left.
Qed.
End Refills.

(** ** Two invocations in a row *)

Section Consecutive.
Context {rt : Runtime}.

(** The bounds of the read depend on the two date strings only. *)
Lemma cacheReads_same_bounds world1 world2 fromDate toDate s1 s2 lower upper :
  cacheReads (trace (invoke world1 fromDate toDate s1)) = [(lower, upper)] →
  cacheReads (trace (invoke world2 fromDate toDate s2)) = [(lower, upper)].
Proof.
  destruct (invoke_path world1 fromDate toDate s1) as (c1 & s1' & t1 & Hp1 & ->).
  destruct (invoke_path world2 fromDate toDate s2) as (c2 & s2' & t2 & Hp2 & ->).
  destruct (catchLog_silent c2) as (Hc2 & _).
  simpl. intros Hread.
  assert (∃ from to, parse fromDate "dd/MM/yyyy" = Some from ∧
                     parse toDate "dd/MM/yyyy" = Some to ∧
                     lower = isoString (startOfDayMs from) ∧
                     upper = isoString (endOfDayMs to))
    as (from & to & Hfrom & Hto & -> & ->).
  { inversion Hp1; subst; simpl in Hread; try discriminate;
      injection Hread as <- <-; eauto 10. }
  clear Hread Hp1.
  inversion Hp2 as [ [?|?] | | | ? ? ? ? ? ? ? ? ? ? ? Hapi ]; subst;
    simpl; trace_simpl; rewrite ?Hc2; try congruence;
    try (repeat f_equal; congruence).
  apply callFormattedApi_cases in Hapi as (t'' & -> & Hcase).
  assert (cacheReads t'' = []) as Ht''.
  { destruct (accepted _); [|by destruct Hcase as (-> & _)].
    destruct Hcase as (t3 & -> & Hsync).
    by apply syncToFirestore_cases in Hsync as (_ & _ & Hr & _). }
  trace_simpl. rewrite ?Ht'', ?Hc2.
  match goal with |- context [if hasOutliers ?x then _ else _] =>
    destruct (hasOutliers x) end; simpl; repeat f_equal; congruence.
Qed.

(** A read that is answered with a non-empty snapshot free of outliers
    is served from the cache. *)
Lemma served_from_cache world fromDate toDate s lower upper :
  let out := invoke world fromDate toDate s in
  let docs := runQuery (store s) lower upper in
  cacheReads (trace out) = [(lower, upper)] →
  firestoreUp world = true →
  docs ≠ [] →
  hasOutliers (doc_data <$> docs) = false →
  remoteCalls (trace out) = [] ∧ cacheWrites (trace out) = [] ∧
  published (trace out) = [doc_data <$> docs] ∧
  data (final out) = doc_data <$> docs ∧
  store (final out) = store s.
Proof.
  intros out docs. subst out docs.
  destruct (invoke_path world fromDate toDate s) as (c & s' & t & Hpath & ->).
  intros Hread Hup Hne Hclean.
  inversion Hpath as [ | | | ? ? ? ? ? ? ? ? ? ? Hmiss ? ]; subst;
    simpl in Hread; try congruence.
  - by injection Hread as <- <-.
  - injection Hread as <- <- _. simpl in *. destruct Hmiss; congruence.
Qed.

(** X9 (a poisoned document survives): the refill does not delete.
    A stored document of the range with a price above the threshold,
    which no write of the refill refers to, is still stored after
    the invocation, so this invocation and the next one for the same
    range both call the provider. *)
Theorem poisoned_document_survives world1 world2 fromDate toDate s
    lower upper id d :
  let out1 := invoke world1 fromDate toDate s in
  let out2 := invoke world2 fromDate toDate (final out1) in
  cacheReads (trace out1) = [(lower, upper)] →
  firestoreUp world1 = true →
  firestoreUp world2 = true →
  store s !! id = Some d →
  aboveThreshold (fields d) →
  (lower ≤ date (fields d))%string →
  (date (fields d) ≤ upper)%string →
  (∀ b, b ∈ cacheWrites (trace out1) → id ∉ omap collectionKey b.*1) →
  store (final out1) !! id = Some d ∧
  remoteCalls (trace out1) = [formattedUrl fromDate toDate] ∧
  remoteCalls (trace out2) = [formattedUrl fromDate toDate].
Proof.
  intros out1 out2 Hread Hup1 Hup2 Hd Habove Hlo Hhi Hnot.
  assert (∀ coll, coll !! id = Some d →
            hasOutliers (doc_data <$> runQuery coll lower upper) = true)
    as Hveto.
  { intros coll Hlook. apply hasOutliers_above, Exists_exists.
    exists (fields d). split; [|done].
    apply list_elem_of_fmap. exists d. split; [done|].
    apply runQuery_elem_of. eauto. }
  assert (store (final out1) !! id = Some d) as Hkept.
  { subst out1. rewrite invoke_store, <- Hd.
    destruct (cacheWrites _) as [|b rest]; [done|].
    destruct (commitOk world1); [|done].
    apply lookup_applyBatch_notin, Hnot. by left. }
  split_and!; [done| |].
  - apply (refilled_publishes_provider_only world1 fromDate toDate s).
    eapply refilled_of_read; eauto.
  - apply (refilled_publishes_provider_only world2 fromDate toDate (final out1)).
    eapply refilled_of_read; eauto.
    eapply cacheReads_same_bounds; eauto.
Qed.

(** X8 (a refill repairs the cache): after a miss on an empty range,
    when the accepted series is not empty, is committed, and each of
    its records has a date between the bounds, an identifier without a
    slash to interpret and no price above the threshold, the next
    invocation for the same range is served from
    the cache: no provider call and no commit, whatever the provider
    would answer, and a non-empty result made of records of that
    series - all of them, each once, when their identifiers are
    pairwise distinct. *)
Theorem refill_then_cache_hit world1 world2 fromDate toDate s
    lower upper items :
  let out1 := invoke world1 fromDate toDate s in
  let out2 := invoke world2 fromDate toDate (final out1) in
  cacheReads (trace out1) = [(lower, upper)] →
  firestoreUp world1 = true →
  runQuery (store s) lower upper = [] →
  accepted (fetchResult world1) = Some items →
  items ≠ [] →
  Forall (fun item => plainlyKeyed item ∧ ¬ aboveThreshold item ∧
                      (lower ≤ date item)%string ∧ (date item ≤ upper)%string)
         items →
  commitOk world1 = true →
  firestoreUp world2 = true →
  remoteCalls (trace out2) = [] ∧
  cacheWrites (trace out2) = [] ∧
  published (trace out2) = [data (final out2)] ∧
  data (final out2) ≠ [] ∧
  (∀ item, item ∈ data (final out2) → item ∈ items) ∧
  store (final out2) = store (final out1) ∧
  (NoDup (docId <$> items) → data (final out2) ≡ₚ items).
Proof.
  intros out1 out2 Hread Hup1 Hempty Hacc Hne Hgood Hok Hup2.
  rewrite Forall_forall in Hgood.
  (* the first invocation commits one write per record *)
  assert (∃ b, Forall2 stagedFor b items ∧
               store (final out1) = applyBatch b (store s)) as (b & Hb & Hstore).
  { destruct (refilled_writes world1 fromDate toDate s out1 items)
      as [([->|(e & Hthrow)] & _)|(b & Hb & _ & _ & Hs)]; [| |done| |].
    - eapply refilled_of_read; eauto.
    - done.
    - exfalso. apply Exists_exists in Hthrow as (item & Hin & Hthrow).
      destruct (Hgood item Hin) as (Hplain & _).
      destruct (plainlyKeyed_referenced item Hplain). congruence.
    - exists b. by rewrite Hs, Hok. }
  assert (plainBatch b) as Hplain.
  { apply (plainlyKeyed_batch b items); [|done].
    apply Forall_forall. intros item Hin. by destruct (Hgood item Hin). }
  assert (∀ entry, entry ∈ b → fields entry.2 ∈ items) as Hfields.
  { intros entry (i & Hi)%list_elem_of_lookup.
    destruct (Forall2_lookup_l _ _ _ _ _ Hb Hi) as (item & Hlook & _ & -> & _).
    apply list_elem_of_lookup. eauto. }
  (* what the second read finds *)
  set (docs := runQuery (store (final out1)) lower upper).
  assert (∀ id d, store (final out1) !! id = Some d →
            (lower ≤ date (fields d))%string → (date (fields d) ≤ upper)%string →
            (id, d) ∈ b) as Hfrom_batch.
  { intros id d Hlook Hlo Hhi. rewrite Hstore in Hlook.
    destruct (decide (id ∈ b.*1)) as [Hin|Hnot].
    - destruct (lookup_applyBatch_in b (store s) id Hplain Hin) as (d' & Hd' & Hl').
      congruence.
    - rewrite lookup_applyBatch_notin in Hlook by (by rewrite plainBatch_keys).
      assert (d ∈ runQuery (store s) lower upper) as Hd
        by (apply runQuery_elem_of; eauto).
      rewrite Hempty in Hd. by apply elem_of_nil in Hd. }
  assert (∀ d, d ∈ docs → fields d ∈ items) as Hdocs.
  { intros d (id & Hlook & Hlo & Hhi)%runQuery_elem_of.
    apply (Hfields (id, d)). eauto. }
  assert (docs ≠ []) as Hsome.
  { destruct b as [|[id0 d0] b'] eqn:Heqb.
    { apply Forall2_nil_inv_l in Hb. done. }
    destruct (lookup_applyBatch_in b (store s) id0) as (d & Hd & Hlook).
    { by rewrite Heqb. }
    { rewrite Heqb. by left. }
    assert (d ∈ docs) as Hin.
    { apply runQuery_elem_of. exists id0. rewrite Hstore, <- Heqb.
      split; [done|].
      rewrite <- Heqb in Hfields.
      by destruct (Hgood _ (Hfields _ Hd)) as (_ & _ & ? & ?). }
    intros Hnil. rewrite Hnil in Hin. by apply elem_of_nil in Hin. }
  assert (hasOutliers (doc_data <$> docs) = false) as Hclean.
  { apply not_true_is_false. intros Hout%hasOutliers_iff.
    apply Exists_exists in Hout as (item & Hin & Habove).
    apply list_elem_of_fmap in Hin as (d & -> & Hd).
    by destruct (Hgood _ (Hdocs d Hd)) as (_ & Hnot & _). }
  destruct (served_from_cache world2 fromDate toDate (final out1) lower upper)
    as (Hcalls & Hwrites & Hpub & Hdata & Hsame); try done.
  { eapply cacheReads_same_bounds; eauto. }
  fold out2 in Hcalls, Hwrites, Hpub, Hdata, Hsame. fold docs in Hpub, Hdata.
  rewrite Hcalls, Hwrites, Hpub, Hdata, Hsame.
  split_and!; try done.
  - intros Hnil. by apply fmap_nil_inv in Hnil.
  - intros item (d & -> & Hd)%list_elem_of_fmap. by apply Hdocs.
  - intros Hnodup.
    assert (inr <$> b.*1 = docId <$> items) as Hids.
    { clear -Hb. induction Hb as [|entry item b items (Hid & _) _ IH];
        [done|]. rewrite !fmap_cons. by rewrite Hid, IH. }
    assert (NoDup b.*1) as Hnd.
    { rewrite <- Hids in Hnodup. by apply NoDup_fmap in Hnodup; [|apply _]. }
    assert (fields <$> b.*2 = items) as Hrecords.
    { clear -Hb. induction Hb as [|entry item b items (_ & Hf & _) _ IH];
        [done|]. rewrite !fmap_cons. by rewrite Hf, IH. }
    rewrite <- Hrecords. unfold docs, runQuery.
    rewrite merge_sort_Permutation.
    apply fmap_Permutation, fmap_Permutation.
    apply NoDup_Permutation.
    + apply NoDup_filter, NoDup_map_to_list.
    + by apply NoDup_fmap_1 in Hnd.
    + intros [id d]. rewrite list_elem_of_filter, elem_of_map_to_list. split.
      * intros ((Hlo & Hhi) & Hlook). eauto.
      * intros Hin. pose proof (Hfields _ Hin) as Hitem.
        destruct (Hgood _ Hitem) as (_ & _ & Hlo & Hhi).
        split; [done|]. rewrite Hstore.
        by apply lookup_applyBatch_NoDup.
Qed.
End Consecutive.

(** ** Sessions of the hook *)

(** X11 (sessions): however many calls a mounted hook has awaited, with
    whatever arguments and answers, the busy flag is clear at the end,
    [historyData] is the series published last (or still empty when
    nothing was published), no document of the collection has been
    removed, and there were at most one provider call and one commit per
    call. *)
Theorem session_keeps_hook_consistent {rt : Runtime} (calls : list Call)
    (coll : gmap string Document) :
  let ended := session calls (mounted coll) in
  loading ended.1 = false ∧
  data ended.1 = default [] (last (published ended.2)) ∧
  dom coll ⊆ dom (store ended.1) ∧
  (length (remoteCalls ended.2) ≤ length calls)%nat ∧
  (length (cacheWrites ended.2) ≤ length calls)%nat.
Proof.
  assert (∀ s, loading s = false →
            loading (session calls s).1 = false ∧
            data (session calls s).1
              = default (data s) (last (published (session calls s).2)) ∧
            dom (store s) ⊆ dom (store (session calls s).1) ∧
            (length (remoteCalls (session calls s).2) ≤ length calls)%nat ∧
            (length (cacheWrites (session calls s).2) ≤ length calls)%nat)
    as Hany.
  { induction calls as [|call calls IH]; intros s Hidle; [done|].
    simpl.
    set (out := invoke (callWorld call) (callFrom call) (callTo call) s).
    destruct (IH (final out)) as (Hl & Hd & Hdom & Hcalls & Hwrites);
      [apply invoke_loading|].
    destruct (session calls (final out)) as [s' t]. simpl in *.
    split_and!.
    - done.
    - rewrite Hd, published_app, last_app.
      unfold out at 1. rewrite invoke_data. fold out.
      by destruct (last (published t)).
    - etrans; [apply (invoke_dom_mono (callWorld call) (callFrom call) (callTo call))|].
      exact Hdom.
    - rewrite remoteCalls_app, length_app.
      pose proof (invoke_path (callWorld call) (callFrom call) (callTo call) s)
        as (c & s1 & t1 & Hpath & Hout).
      assert (length (remoteCalls (trace out)) ≤ 1)%nat; [|lia].
      unfold out. clear. all_runs (callWorld call) (callFrom call) (callTo call) s;
        simpl; trace_simpl;
        repeat match goal with |- context [if hasOutliers ?x then _ else _] =>
                 destruct (hasOutliers x) end; simpl; lia.
    - rewrite cacheWrites_app, length_app.
      assert (length (cacheWrites (trace out)) ≤ 1)%nat; [|lia].
      unfold out. clear. all_runs (callWorld call) (callFrom call) (callTo call) s;
        simpl; trace_simpl;
        repeat match goal with |- context [if hasOutliers ?x then _ else _] =>
                 destruct (hasOutliers x) end; simpl; lia. }
  intros ended. subst ended. by apply (Hany (mounted coll)).
Qed.

(** ** Concrete runs of the further properties *)

Import Cases.

Lemma read_failure_is_silent_witness :
  let out := invoke (rt := vietnam) offline
               "01/01/2026" "05/01/2026" (idle healthyCache) in
  data (final out) = [] ∧ store (final out) = healthyCache ∧
  promise out = Fulfilled.
Proof.
  intros out.
  destruct (read_failure_is_silent (rt := vietnam) offline
              "01/01/2026" "05/01/2026" (idle healthyCache)
              "2025-12-31T17:00:00.000Z" "2026-01-05T16:59:59.999Z")
    as (_ & Hd & Hs & _ & Hp).
  - vm_compute. reflexivity.
  - reflexivity.
  - split_and!; [exact Hd|exact Hs|exact Hp].
Defined.

Lemma thrown_provider_failure_is_logged_once_witness :
  let out := invoke (rt := vietnam) networkDown
               "01/01/2026" "05/01/2026" (idle ∅) in
  length (loggedErrors (trace out)) = 1%nat ∧ published (trace out) = [].
Proof.
  intros out.
  destruct (thrown_provider_failure_is_logged_once (rt := vietnam) networkDown
              "01/01/2026" "05/01/2026" (idle ∅))
    as ((e & He & _) & Hp & _).
  - vm_compute. discriminate.
  - left. reflexivity.
  - split; [|exact Hp]. fold out in He. rewrite He. reflexivity.
Defined.

Lemma rejected_envelope_is_not_logged_witness :
  let out := invoke (rt := vietnam) refusing
               "01/01/2026" "05/01/2026" (idle ∅) in
  loggedErrors (trace out) = [] ∧ data (final out) = [].
Proof.
  intros out.
  destruct (rejected_envelope_is_not_logged (rt := vietnam) refusing
              "01/01/2026" "05/01/2026" (idle ∅)
              (mkResponse 200 (BodyJson (JsonObject false (ItemArray freshSeries))))
              false (ItemArray freshSeries))
    as (Hl & _ & Hd & _).
  - vm_compute. discriminate.
  - reflexivity.
  - reflexivity.
  - reflexivity.
  - left. reflexivity.
  - split; [exact Hl|exact Hd].
Defined.

Lemma committed_records_are_retrievable_witness :
  let out := invoke (rt := vietnam) (answering freshSeries)
               "01/01/2026" "05/01/2026" (idle ∅) in
  ∃ b, cacheWrites (trace out) = [b] ∧
       store (final out) = applyBatch b ∅.
Proof.
  intros out.
  destruct (committed_records_are_retrievable (rt := vietnam) (answering freshSeries)
              "01/01/2026" "05/01/2026" (idle ∅) freshSeries)
    as (b & Hw & _ & Hs & _).
  - vm_compute. discriminate.
  - reflexivity.
  - discriminate.
  - repeat (constructor; [eexists; split; vm_compute; reflexivity|]).
    constructor.
  - reflexivity.
  - exists b. split; [exact Hw|exact Hs].
Defined.

Lemma cache_served_iff_nothing_above_witness :
  let out := invoke (rt := vietnam) serverError
               "01/01/2026" "05/01/2026" (idle nanCache) in
  remoteCalls (trace out) = [] ∧ length (data (final out)) = 2%nat.
Proof.
  intros out.
  destruct (cache_served_iff_nothing_above (rt := vietnam) serverError
              "01/01/2026" "05/01/2026" (idle nanCache)
              "2025-12-31T17:00:00.000Z" "2026-01-05T16:59:59.999Z")
    as (Hiff & Hserved).
  - vm_compute. reflexivity.
  - reflexivity.
  - assert (remoteCalls (trace out) = []) as Hnone
      by (vm_compute; reflexivity).
    split; [exact Hnone|].
    destruct (Hserved Hnone) as (_ & Hd). fold out in Hd.
    etrans; [exact (f_equal length Hd)|]. vm_compute. reflexivity.
Defined.

Lemma cache_hit_is_the_range_witness :
  let out := invoke (rt := vietnam) serverError
               "01/01/2026" "05/01/2026" (idle healthyCache) in
  length (data (final out)) = 3%nat.
Proof.
  intros out.
  destruct (cache_hit_is_the_range (rt := vietnam) serverError
              "01/01/2026" "05/01/2026" (idle healthyCache)
              "2025-12-31T17:00:00.000Z" "2026-01-05T16:59:59.999Z")
    as (_ & Hlen).
  - vm_compute. reflexivity.
  - reflexivity.
  - vm_compute. reflexivity.
  - etrans; [exact Hlen|]. vm_compute. reflexivity.
Defined.

Lemma refill_then_cache_hit_witness :
  let out1 := invoke (rt := vietnam) (answering freshSeries)
                "01/01/2026" "05/01/2026" (idle ∅) in
  let out2 := invoke (rt := vietnam) serverError
                "01/01/2026" "05/01/2026" (final out1) in
  remoteCalls (trace out2) = [] ∧ data (final out2) ≡ₚ freshSeries.
Proof.
  intros out1 out2.
  destruct (refill_then_cache_hit (rt := vietnam) (answering freshSeries) serverError
              "01/01/2026" "05/01/2026" (idle ∅)
              "2025-12-31T17:00:00.000Z" "2026-01-05T16:59:59.999Z" freshSeries)
    as (Hc & _ & _ & _ & _ & _ & Hperm).
  - vm_compute. reflexivity.
  - reflexivity.
  - vm_compute. reflexivity.
  - reflexivity.
  - discriminate.
  - repeat (constructor;
      [split_and!;
        [eexists; split; vm_compute; reflexivity
        |intros [Habove|Habove]; vm_compute in Habove; discriminate
        |vm_compute; exact I
        |vm_compute; exact I]|]).
    constructor.
  - reflexivity.
  - reflexivity.
  - split; [exact Hc|]. apply Hperm.
    assert (docId (rt := vietnam) <$> freshSeries
            = [inr "bar_20260102_090000"; inr "bar_20260103_090000";
               inr "bar_20260104_090000"]) as -> by (vm_compute; reflexivity).
    repeat (constructor;
      [rewrite ?elem_of_cons, elem_of_nil; intros Hin; destruct_or!;
       discriminate || done|]).
    constructor.
Defined.

Lemma poisoned_document_survives_witness :
  let out1 := invoke (rt := vietnam) (answering gappedSeries)
                "01/01/2026" "05/01/2026" (idle corruptCache) in
  let out2 := invoke (rt := vietnam) (answering gappedSeries)
                "01/01/2026" "05/01/2026" (final out1) in
  is_Some (store (final out1) !! "bar_20260103_090000") ∧
  remoteCalls (trace out2) = [formattedUrl "01/01/2026" "05/01/2026"].
Proof.
  intros out1 out2.
  destruct (poisoned_document_survives (rt := vietnam)
              (answering gappedSeries) (answering gappedSeries)
              "01/01/2026" "05/01/2026" (idle corruptCache)
              "2025-12-31T17:00:00.000Z" "2026-01-05T16:59:59.999Z"
              "bar_20260103_090000" (cachedDoc "03" 520000000%float).2)
    as (Hkept & _ & Hagain).
  - vm_compute. reflexivity.
  - reflexivity.
  - reflexivity.
  - vm_compute. reflexivity.
  - right. vm_compute. reflexivity.
  - vm_compute. exact I.
  - vm_compute. exact I.
  - intros b Hb.
    assert (cacheWrites (trace (invoke (rt := vietnam) (answering gappedSeries)
              "01/01/2026" "05/01/2026" (idle corruptCache)))
            = [[("bar_20260102_090000",
                 mkDoc (quote "02" 92100000%float) "SJC" "2026-01-06T01:00:00.000Z");
                ("bar_20260104_090000",
                 mkDoc (quote "04" 92100000%float) "SJC" "2026-01-06T01:00:00.000Z")]])
      as Hw by (vm_compute; reflexivity).
    revert b Hb. apply Forall_forall. rewrite Hw. clear Hw.
    constructor; [|constructor].
    assert (omap collectionKey
              [("bar_20260102_090000",
                 mkDoc (quote "02" 92100000%float) "SJC" "2026-01-06T01:00:00.000Z");
                ("bar_20260104_090000",
                 mkDoc (quote "04" 92100000%float) "SJC" "2026-01-06T01:00:00.000Z")].*1
            = ["bar_20260102_090000"; "bar_20260104_090000"]) as ->
      by (vm_compute; reflexivity).
    rewrite !elem_of_cons, elem_of_nil. intros [?|[?|?]]; discriminate || done.
  - split; [eexists; exact Hkept|exact Hagain].
Defined.

Lemma only_written_documents_change_witness :
  let out := invoke (rt := vietnam) (answering gappedSeries)
               "01/01/2026" "05/01/2026" (idle corruptCache) in
  store (final out) !! "bar_20260103_090000"
  = corruptCache !! "bar_20260103_090000".
Proof.
  intros out.
  apply (only_written_documents_change (rt := vietnam) (answering gappedSeries)
           "01/01/2026" "05/01/2026" (idle corruptCache) "bar_20260103_090000").
  intros b Hb.
  assert (cacheWrites (trace (invoke (rt := vietnam) (answering gappedSeries)
            "01/01/2026" "05/01/2026" (idle corruptCache)))
          = [[("bar_20260102_090000",
               mkDoc (quote "02" 92100000%float) "SJC" "2026-01-06T01:00:00.000Z");
              ("bar_20260104_090000",
               mkDoc (quote "04" 92100000%float) "SJC" "2026-01-06T01:00:00.000Z")]])
    as Hw by (vm_compute; reflexivity).
  revert b Hb. apply Forall_forall. rewrite Hw. clear Hw.
  constructor; [|constructor].
  assert (omap collectionKey
            [("bar_20260102_090000",
               mkDoc (quote "02" 92100000%float) "SJC" "2026-01-06T01:00:00.000Z");
              ("bar_20260104_090000",
               mkDoc (quote "04" 92100000%float) "SJC" "2026-01-06T01:00:00.000Z")].*1
          = ["bar_20260102_090000"; "bar_20260104_090000"]) as ->
    by (vm_compute; reflexivity).
  rewrite !elem_of_cons, elem_of_nil. intros [?|[?|?]]; discriminate || done.
Defined.

